(** * brainstorm.data_iterators: a shallow embedding and its properties

    The module [brainstorm/data_iterators.py] feeds a training loop with
    batches cut out of named arrays of shape [(time, batch, features...)].
    This development embeds

    - the arrays (shape plus row-major buffer) and the slicing [v[:, a:b]],
    - the shape validator [_assert_correct_data_format],
    - the progress coroutines [progress_bar] and [silence],
    - the iterator objects [Undivided], [Online], [Minibatches] and
      [AddGaussianNoise], their constructors and their generators,

    over an explicit store of Python dict objects, so that the sharing of a
    dict between an iterator and the batches it yields is visible.

    Arrays are values: the only array the module writes in place is the
    [noise] array that [AddGaussianNoise.__call__] has just allocated, so
    no write reaches an array that is shared.  Python integers are [Z].
    The two quotients the module takes in floating point are taken
    exactly: the ceiling of [nr_sequences / batch_size] then agrees with
    the interpreter's as long as the numbers stay below 2^53, and in
    [progress / maximum * len(bar)] the rounding can move the position in
    the bar by one character, but not to its end before [progress]
    reaches [maximum].  [assert] always checks (no [-O]). *)

From Stdlib Require Import ZArith Lia.
From stdpp Require Import base numbers list strings gmap fin_maps.

(** ** Exceptions and results *)

Inductive validation_msg :=
| NoShapeAttribute (name : string)
| TooFewDimensions
| UnequalSequences (nr_sequences : gmap string Z).

Inductive exn :=
| IteratorValidationError (msg : validation_msg)
| AssertionError
| AttributeError
| KeyError (key : string)
| ValueError
| ZeroDivisionError
| IndexError
| StopIteration.

Inductive result (A : Type) :=
| Ok (a : A)
| Raise (e : exn).
Arguments Ok {A} a.
Arguments Raise {A} e.

Global Instance result_ret : MRet result := λ A a, Ok a.

Global Instance result_bind : MBind result := λ A B k r,
  match r with
  | Ok a => k a
  | Raise e => Raise e
  end.

Global Instance result_fmap : FMap result := λ A B f r,
  match r with
  | Ok a => Ok (f a)
  | Raise e => Raise e
  end.

Definition is_validation_error {A} (r : result A) : Prop :=
  ∃ msg, r = Raise (IteratorValidationError msg).

(** ** Arrays

    A numpy array is its shape and its buffer in row-major order.  The
    element type is left open. *)

Section arrays.
Context {elem : Type}.

Record ndarray := NDArray { shape : list nat; flat : list elem }.

Definition size_of (s : list nat) : nat := foldr Nat.mul 1%nat s.

Definition wf_array (v : ndarray) : Prop := length (flat v) = size_of (shape v).

(** The values a caller may pass as named data: arrays, and objects that
    have no [shape] attribute. *)
Inductive pyobj :=
| PyArr (a : ndarray)
| PyOther.

(** [slice(start, stop).indices(n)] for step 1: negative bounds count from
    the end, and both bounds are clipped to [0..n]. *)
Definition slice_bound (n i : Z) : Z :=
  if (i <? 0)%Z then Z.max 0 (i + n) else Z.min i n.

Definition slice_start (n start : Z) : nat := Z.to_nat (slice_bound n start).

Definition slice_len (n start stop : Z) : nat :=
  Z.to_nat (slice_bound n stop - slice_bound n start).

(** [v[:, start:stop]]: every time step keeps its columns
    [start..stop-1]; the result still has all dimensions of [v]. *)
Definition getitem_batch (v : ndarray) (start stop : Z) : result ndarray :=
  match shape v with
  | t :: n :: rest =>
      let off := slice_start (Z.of_nat n) start in
      let len := slice_len (Z.of_nat n) start stop in
      let p := size_of rest in
      Ok {| shape := t :: len :: rest;
            flat := mjoin ((λ r, take (len * p) (drop (r * (n * p) + off * p) (flat v)))
                             <$> seq 0 t) |}
  | _ => Raise IndexError
  end.

Definition getitem_batch_obj (o : pyobj) (start stop : Z) : result pyobj :=
  match o with
  | PyArr v => a ← getitem_batch v start stop; Ok (PyArr a)
  | PyOther => Raise IndexError
  end.

(** ** The shape validator *)

Fixpoint collect_nr_sequences (items : list (string * pyobj))
    (nr_sequences : gmap string Z) : result (gmap string Z) :=
  match items with
  | [] => Ok nr_sequences
  | (name, data) :: items' =>
      match data with
      | PyOther => Raise (IteratorValidationError (NoShapeAttribute name))
      | PyArr a =>
          if (length (shape a) <? 3)%nat
          then Raise (IteratorValidationError TooFewDimensions)
          else collect_nr_sequences items'
                 (<[name := Z.of_nat (nth 1 (shape a) 0%nat)]> nr_sequences)
      end
  end.

(** Python's [min] and [max] of a sequence; both raise [ValueError] on an
    empty one. *)
Definition py_min (l : list Z) : result Z :=
  match l with
  | [] => Raise ValueError
  | x :: l' => Ok (foldl Z.min x l')
  end.

Definition py_max (l : list Z) : result Z :=
  match l with
  | [] => Raise ValueError
  | x :: l' => Ok (foldl Z.max x l')
  end.

Definition values (m : gmap string Z) : list Z := (map_to_list m).*2.

Definition _assert_correct_data_format (named_data : gmap string pyobj) : result Z :=
  nr_sequences ← collect_nr_sequences (map_to_list named_data) ∅;
  lo ← py_min (values nr_sequences);
  hi ← py_max (values nr_sequences);
  if decide (lo ≠ hi)
  then Raise (IteratorValidationError (UnequalSequences nr_sequences))
  else py_min (values nr_sequences).

(** What the loop of the validator accepts, and the size it records *)
Definition acceptable (o : pyobj) : Prop :=
  ∃ a, o = PyArr a ∧ 3 ≤ length (shape a).

Definition recorded (o : pyobj) : Z :=
  match o with
  | PyArr a => Z.of_nat (nth 1 (shape a) 0%nat)
  | PyOther => 0
  end.

(** The three ways a dataset can be wrong *)
Definition lacks_shape (named_data : gmap string pyobj) : Prop :=
  ∃ k, named_data !! k = Some PyOther.

Definition too_few_dims (named_data : gmap string pyobj) : Prop :=
  ∃ k a, named_data !! k = Some (PyArr a) ∧ length (shape a) < 3.

Definition sizes_disagree (named_data : gmap string pyobj) : Prop :=
  ∃ k1 a1 n1 k2 a2 n2,
    named_data !! k1 = Some (PyArr a1) ∧ shape a1 !! 1 = Some n1 ∧
    named_data !! k2 = Some (PyArr a2) ∧ shape a2 !! 1 = Some n2 ∧
    n1 ≠ n2.

(** Every value is an array of at least three dimensions whose second
    dimension is [n]. *)
Definition well_shaped (n : nat) (named_data : gmap string pyobj) : Prop :=
  ∀ k o, named_data !! k = Some o →
    ∃ a, o = PyArr a ∧ 3 ≤ length (shape a) ∧ shape a !! 1 = Some n.

(** [{k: f(v) for k, v in d.items()}] *)
Definition dict_comprehension (f : pyobj → result pyobj)
    (d : gmap string pyobj) : result (gmap string pyobj) :=
  list_to_map <$> mapM (λ kv, v' ← f kv.2; Ok (kv.1, v')) (map_to_list d).

End arrays.
Arguments ndarray : clear implicits.
Arguments pyobj : clear implicits.

(** ** The progress coroutines

    A coroutine is the point at which it is suspended.  [progress_bar] is
    suspended either at [progress = yield out] inside the loop, with its
    [maximum] and its position [i] in the bar, or at its final [yield];
    [silence] is always at its only [yield]. *)

Definition bar : string := "====1====2====3====4====5====6====7====8====9====0".
Definition prefix : string := "[".
Definition suffix (elapsed_str : string) : string :=
  "] Took: " +:+ elapsed_str +:+ String (Ascii.ascii_of_nat 10) EmptyString.

Definition len (s : string) : Z := Z.of_nat (String.length s).

(** [s[i:j]] on a string *)
Definition str_slice (s : string) (i j : Z) : string :=
  String.substring (slice_start (len s) i) (slice_len (len s) i j) s.

Inductive p_bar_state :=
| Silence
| BarLoop (maximum : Z) (i : Z)
| BarFinal.

(** [p_bar = progress_bar(maximum); next(p_bar)] *)
Definition progress_bar (maximum : Z) : string * p_bar_state :=
  (prefix, BarLoop maximum 0).

(** [p_bar = silence(); next(p_bar)] *)
Definition silence : string * p_bar_state := (""%string, Silence).

(** [p_bar.send(progress)].  The quotient [progress / maximum * len(bar)]
    is taken exactly; the interpreter rounds it to a double, which can move
    the cut in the bar by one character and nothing else as long as the
    numbers stay below 2^53. *)
Definition send (elapsed_str : string) (p_bar : p_bar_state) (progress : Z)
    : result (string * p_bar_state) :=
  match p_bar with
  | Silence => Ok (""%string, Silence)
  | BarLoop maximum i =>
      if decide (maximum = 0%Z) then Raise ZeroDivisionError
      else
        let j := (progress * len bar ÷ maximum)%Z in
        let out := str_slice bar i j in
        if (j <? len bar)%Z then Ok (out, BarLoop maximum j)
        else Ok (out +:+ suffix elapsed_str, BarFinal)
  | BarFinal => Raise StopIteration
  end.

(** ** External collaborators

    The random source of [brainstorm.randomness.Seedable] and the compute
    handler are not part of this module; they are taken as interfaces,
    with the contract the module relies on. *)

Class RandomSource (R : Type) := {
  (** [Seedable.__init__(self, seed=seed)]: the state of the fresh [self.rnd] *)
  rnd_of_seed : option Z → R;
  (** [rnd.shuffle(indices)]: the shuffled sequence and the next state *)
  rnd_shuffle : list Z → R → list Z * R;
  rnd_shuffle_perm : ∀ l r, (rnd_shuffle l r).1 ≡ₚ l
}.

Class Handler (elem H : Type) := {
  (** the float [0.0] *)
  float_zero : elem;
  (** [handler.zeros(shape)] *)
  zeros : list nat → ndarray elem;
  (** [handler.fill_gaussian(mean, std, out)]: the new contents of [out]
      and the next state of the handler's generator *)
  fill_gaussian : elem → elem → ndarray elem → H → ndarray elem * H;
  (** [handler.add_tt(a, b, out)]: the new contents of [out] *)
  add_tt : ndarray elem → ndarray elem → ndarray elem → ndarray elem;
  zeros_shape : ∀ s, shape (zeros s) = s;
  fill_gaussian_shape : ∀ mean std out h,
    shape (fill_gaussian mean std out h).1 = shape out;
  add_tt_shape : ∀ a b out, shape (add_tt a b out) = shape out
}.

(** ** The store *)

Abbreviation loc := nat (only parsing).

Record world {elem R H : Type} := World {
  heap : gmap loc (gmap string (pyobj elem));   (** the dict objects *)
  rnds : gmap loc R;                            (** the [rnd] of each seedable iterator *)
  stdout : list string;                         (** what was printed *)
  sent : list Z;                                (** what [p_bar.send] was given *)
  hstate : H;                                   (** the handler's generator *)
  elapsed_str : string                          (** what the clock will show *)
}.
Arguments world : clear implicits.
Arguments World {elem R H}.

Section model.
Context {elem R H : Type} `{!RandomSource R} `{!Handler elem H}.

Abbreviation dict := (gmap string (pyobj elem)).
Abbreviation world := (world elem R H).

Definition set_heap (f : gmap loc dict → gmap loc dict) (w : world) : world :=
  World (f (heap w)) (rnds w) (stdout w) (sent w) (hstate w) (elapsed_str w).
Definition set_rnds (f : gmap loc R → gmap loc R) (w : world) : world :=
  World (heap w) (f (rnds w)) (stdout w) (sent w) (hstate w) (elapsed_str w).
Definition set_hstate (h : H) (w : world) : world :=
  World (heap w) (rnds w) (stdout w) (sent w) h (elapsed_str w).
(** [print(s, end=''); sys.stdout.flush()] *)
Definition print (s : string) (w : world) : world :=
  World (heap w) (rnds w) (stdout w ++ [s]) (sent w) (hstate w) (elapsed_str w).
Definition log_sent (progress : Z) (w : world) : world :=
  World (heap w) (rnds w) (stdout w) (sent w ++ [progress]) (hstate w) (elapsed_str w).

(** A new dict object *)
Definition alloc (d : dict) (w : world) : loc * world :=
  let l := fresh (dom (heap w)) in (l, set_heap <[l := d]> w).

(** ** The iterator objects *)

(** The attributes [Online] and [Minibatches] have in common *)
Record seedable := Seedable {
  self_data : loc;
  self_nr_sequences : Z;
  self_shuffle : bool;
  self_verbose : option bool;     (** [None], [True] or [False] *)
  self_rnd : loc
}.

Inductive iterator :=
| Undivided (data_names : gset string) (data : loc) (total_size : Z)
| Online (data_names : gset string) (self : seedable) (sample_size : Z)
| Minibatches (data_names : gset string) (self : seedable) (batch_size : Z)
    (sample_size : Z)
| AddGaussianNoise (data_names : gset string) (iter : iterator)
    (std_dict mean_dict : gmap string elem).

Definition data_names (it : iterator) : gset string :=
  match it with
  | Undivided names _ _ | Online names _ _
  | Minibatches names _ _ _ | AddGaussianNoise names _ _ _ => names
  end.

(** [iter.data]: only the three iterators that own a dataset have it. *)
Definition get_data (it : iterator) : result loc :=
  match it with
  | Undivided _ data _ => Ok data
  | Online _ self _ | Minibatches _ self _ _ => Ok (self_data self)
  | AddGaussianNoise _ _ _ _ => Raise AttributeError
  end.

(** [d.size] and [d.shape[0] * np.prod(d.shape[2:])] *)
Definition obj_size (o : pyobj elem) : Z :=
  match o with PyArr a => Z.of_nat (size_of (shape a)) | PyOther => 0 end.
Definition obj_sample_size (o : pyobj elem) : Z :=
  match o with
  | PyArr a => Z.of_nat (nth 0 (shape a) 0%nat * size_of (drop 2 (shape a)))
  | PyOther => 0
  end.
Definition py_sum (l : list Z) : Z := foldr Z.add 0%Z l.

(** [Undivided.__init__], the keyword arguments collected in [named_data] *)
Definition Undivided_init (named_data : dict) (w : world) : result (iterator * world) :=
  _ ← _assert_correct_data_format named_data;
  let '(data, w) := alloc named_data w in
  Ok (Undivided (dom named_data) data
        (py_sum (obj_size <$> (map_to_list named_data).*2)), w).

(** A new [rnd] for a seedable object *)
Definition alloc_rnd (seed : option Z) (w : world) : loc * world :=
  let l := fresh (dom (rnds w)) in (l, set_rnds <[l := rnd_of_seed seed]> w).

(** [Online.__init__] *)
Definition Online_init (shuffle : bool) (verbose : option bool) (seed : option Z)
    (named_data : dict) (w : world) : result (iterator * world) :=
  let '(rnd, w) := alloc_rnd seed w in
  nr_sequences ← _assert_correct_data_format named_data;
  let '(data, w) := alloc named_data w in
  Ok (Online (dom named_data) (Seedable data nr_sequences shuffle verbose rnd)
        (py_sum (obj_sample_size <$> (map_to_list named_data).*2)), w).

(** [Minibatches.__init__] *)
Definition Minibatches_init (batch_size : Z) (shuffle : bool) (verbose : option bool)
    (seed : option Z) (named_data : dict) (w : world) : result (iterator * world) :=
  let '(rnd, w) := alloc_rnd seed w in
  nr_sequences ← _assert_correct_data_format named_data;
  let '(data, w) := alloc named_data w in
  Ok (Minibatches (dom named_data) (Seedable data nr_sequences shuffle verbose rnd)
        batch_size
        (py_sum ((λ o, obj_sample_size o * batch_size)%Z <$> (map_to_list named_data).*2)),
      w).

(** [assert cond] *)
Definition assert (cond : bool) : result () :=
  if cond then Ok () else Raise AssertionError.

(** The loop [for key in std_dict.keys(): assert key in iter.data.keys()] *)
Fixpoint check_keys (keys : list string) (iter : iterator) (w : world) : result () :=
  match keys with
  | [] => Ok ()
  | key :: keys' =>
      data ← get_data iter;
      d ← from_option Ok (Raise AttributeError) (heap w !! data);
      _ ← assert (bool_decide (key ∈ (dom (d : dict) : gset string)));
      check_keys keys' iter w
  end.

(** [AddGaussianNoise.__init__] *)
Definition AddGaussianNoise_init (iter : iterator) (std_dict : gmap string elem)
    (mean_dict : option (gmap string elem)) (w : world) : result iterator :=
  _ ← match mean_dict with
      | Some mean_dict => assert (bool_decide (dom mean_dict = dom std_dict))
      | None => Ok ()
      end;
  _ ← check_keys (map_to_list std_dict).*1 iter w;
  Ok (AddGaussianNoise (data_names iter) iter std_dict (default ∅ mean_dict)).

(** ** The generators

    Calling an iterator makes a generator; nothing of its body runs before
    the first [next].  A generator is the point at which it is suspended,
    and [gen_next] runs it to its next [yield], to its end or to an
    exception. *)

Inductive frame :=
| Start                                              (** not started *)
| AtYield (p_bar : p_bar_state) (i : Z) (rest : list Z).
    (** at [yield data] in iteration [i]; [rest] are the indices to come *)

Inductive generator :=
| GenUndivided (data : loc) (started : bool)
| GenOnline (self : seedable) (verbose : bool) (fr : frame)
| GenMinibatches (self : seedable) (batch_size : Z) (verbose : bool) (fr : frame)
| GenNoise (std_dict mean_dict : gmap string elem) (inner : generator).

Inductive outcome :=
| Yield (batch : loc) (g : generator)
| Stop
| Fail (e : exn).

(** [iterator(handler, verbose)] *)
Fixpoint call (it : iterator) (verbose : bool) : generator :=
  match it with
  | Undivided _ data _ => GenUndivided data false
  | Online _ self _ => GenOnline self verbose Start
  | Minibatches _ self batch_size _ => GenMinibatches self batch_size verbose Start
  | AddGaussianNoise _ iter std_dict mean_dict =>
      GenNoise std_dict mean_dict (call iter verbose)
  end.

(** [np.arange(n)] *)
Definition arange (n : Z) : list Z := seqZ 0 n.

(** [int(math.ceil(n / b))], the quotient taken exactly (the interpreter
    computes it in double precision, which agrees below 2^53) *)
Definition ceil_div (n b : Z) : result Z :=
  if decide (b = 0%Z) then Raise ZeroDivisionError else Ok (- (- n / b))%Z.

(** The first lines of both [__call__]s: choose the coroutine, start it
    and print what it yields. *)
Definition start_p_bar (self : seedable) (verbose : bool) (w : world)
    : p_bar_state * world :=
  let '(out, p_bar) :=
    if match self_verbose self with None => verbose | Some b => b end
    then progress_bar (self_nr_sequences self)
    else silence in
  (p_bar, print out w).

(** [if self.shuffle: self.rnd.shuffle(indices)] *)
Definition shuffle_indices (self : seedable) (indices : list Z) (w : world)
    : result (list Z * world) :=
  if self_shuffle self then
    match rnds w !! self_rnd self with
    | None => Raise AttributeError
    | Some r =>
        let '(indices, r) := rnd_shuffle indices r in
        Ok (indices, set_rnds <[self_rnd self := r]> w)
    end
  else Ok (indices, w).

(** The loop [for i, idx in enumerate(indices)] that [Online] and
    [Minibatches] share, from the head of the loop to its [yield]:
    [chunk idx] are the bounds of the slice [v[:, start:stop]] taken from
    every array of [self.data], and [mk] makes the generator suspended at
    the [yield]. *)
Definition loop_yield (self : seedable) (mk : frame → generator)
    (chunk : Z → Z * Z) (p_bar : p_bar_state) (i : Z) (indices : list Z)
    (w : world) : outcome * world :=
  match indices with
  | [] => (Stop, w)
  | idx :: rest =>
      match heap w !! self_data self with
      | None => (Fail AttributeError, w)
      | Some d =>
          match dict_comprehension
                  (λ v, getitem_batch_obj v (chunk idx).1 (chunk idx).2) d with
          | Raise e => (Fail e, w)
          | Ok data =>
              let '(batch, w) := alloc data w in
              (Yield batch (mk (AtYield p_bar i rest)), w)
          end
      end
  end.

(** The generator from where it is suspended to its next [yield]:
    [indices] is the index range (or the exception its computation
    raises) and [progress i] is what iteration [i] sends to [p_bar]. *)
Definition loop_next (self : seedable) (mk : frame → generator)
    (indices : result (list Z)) (chunk : Z → Z * Z) (progress : Z → Z)
    (verbose : bool) (fr : frame) (w : world) : outcome * world :=
  match fr with
  | Start =>
      let '(p_bar, w) := start_p_bar self verbose w in
      match indices with
      | Raise e => (Fail e, w)
      | Ok indices =>
          match shuffle_indices self indices w with
          | Raise e => (Fail e, w)
          | Ok (indices, w) => loop_yield self mk chunk p_bar 0 indices w
          end
      end
  | AtYield p_bar i rest =>
      let w := log_sent (progress i) w in
      match send (elapsed_str w) p_bar (progress i) with
      | Raise e => (Fail e, w)
      | Ok (out, p_bar) =>
          loop_yield self mk chunk p_bar (i + 1) rest (print out w)
      end
  end.

(** [Online.__call__]: indices [arange(nr_sequences)], slices
    [v[:, idx: idx + 1]], progress [i + 1] *)
Definition Online_next (self : seedable) (verbose : bool) (fr : frame) (w : world)
    : outcome * world :=
  loop_next self (GenOnline self verbose)
    (Ok (arange (self_nr_sequences self)))
    (λ idx, (idx, idx + 1)%Z)
    (λ i, i + 1)%Z
    verbose fr w.

(** [Minibatches.__call__]: indices
    [arange(int(math.ceil(nr_sequences / batch_size)))], slices
    [v[:, idx * batch_size: (idx + 1) * batch_size]], progress
    [(i + 1) * batch_size] *)
Definition Minibatches_next (self : seedable) (batch_size : Z) (verbose : bool)
    (fr : frame) (w : world) : outcome * world :=
  loop_next self (GenMinibatches self batch_size verbose)
    (arange <$> ceil_div (self_nr_sequences self) batch_size)
    (λ idx, (idx * batch_size, (idx + 1) * batch_size)%Z)
    (λ i, (i + 1) * batch_size)%Z
    verbose fr w.

(** The body of the inner loop of [AddGaussianNoise.__call__] for one
    [key] with its [std], on the dict object [data] *)
Definition add_noise (mean_dict : gmap string elem) (data : loc)
    (key : string) (std : elem) (w : world) : result world :=
  d ← from_option Ok (Raise AttributeError) (heap w !! data);
  o ← from_option Ok (Raise (KeyError key)) (d !! key);
  a ← match o with PyArr a => Ok a | PyOther => Raise AttributeError end;
  let noise := zeros (shape a) in
  let mean := default float_zero (mean_dict !! key) in
  let '(noise, h) := fill_gaussian mean std noise (hstate w) in
  let noise := add_tt a noise noise in
  Ok (set_heap <[data := <[key := PyArr noise]> d]> (set_hstate h w)).

(** [for key in self.std_dict.keys(): ...], with [std_dict.get(key)]
    read off the items *)
Fixpoint add_noise_all (mean_dict : gmap string elem) (data : loc)
    (items : list (string * elem)) (w : world) : option exn * world :=
  match items with
  | [] => (None, w)
  | (key, std) :: items' =>
      match add_noise mean_dict data key std w with
      | Raise e => (Some e, w)
      | Ok w => add_noise_all mean_dict data items' w
      end
  end.

Fixpoint gen_next (g : generator) (w : world) : outcome * world :=
  match g with
  | GenUndivided data started =>
      if started then (Stop, w) else (Yield data (GenUndivided data true), w)
  | GenOnline self verbose fr => Online_next self verbose fr w
  | GenMinibatches self batch_size verbose fr =>
      Minibatches_next self batch_size verbose fr w
  | GenNoise std_dict mean_dict inner =>
      match gen_next inner w with
      | (Yield data inner, w) =>
          match add_noise_all mean_dict data (map_to_list std_dict) w with
          | (Some e, w) => (Fail e, w)
          | (None, w) => (Yield data (GenNoise std_dict mean_dict inner), w)
          end
      | r => r
      end
  end.

(** What a consumer [for batch in generator: ...] sees: the dict objects
    yielded, each with its contents at the time it was yielded, and the
    exception that ended the iteration if one did.  [fuel] bounds the
    number of [next]s. *)
Definition after_step
    (consume : generator → world → option (list (loc * dict) * option exn * world))
    (r : outcome * world) : option (list (loc * dict) * option exn * world) :=
  match r with
  | (Stop, w) => Some ([], None, w)
  | (Fail e, w) => Some ([], Some e, w)
  | (Yield batch g, w) =>
      '(batches, e, w') ← consume g w;
      Some ((batch, default ∅ (heap w !! batch)) :: batches, e, w')
  end.

Fixpoint consume (fuel : nat) (g : generator) (w : world)
    : option (list (loc * dict) * option exn * world) :=
  match fuel with
  | O => None
  | S fuel => after_step (consume fuel) (gen_next g w)
  end.

(** The coroutine [p_bar] can take the [n] sends of the iterations
    [i], [i + 1], ...: [silence] always can; [progress_bar] needs a
    non-zero [maximum] and stays in its loop as long as the progress is
    below [maximum], so all sends but the last must be below it. *)
Definition p_bar_ready (progress : Z → Z) (p_bar : p_bar_state) (i : Z) (n : nat) : Prop :=
  match p_bar with
  | Silence => True
  | BarLoop maximum _ =>
      n ≠ 0 →
      (0 < maximum)%Z ∧
      ∀ k, (i ≤ k < i + Z.of_nat n - 1)%Z → (0 ≤ progress k < maximum)%Z
  | BarFinal => n = 0
  end.

(** The batch cut out of the dataset [d] between [bounds] *)
Definition batch_of (d : dict) (bounds : Z * Z) : result dict :=
  dict_comprehension (λ v, getitem_batch_obj v bounds.1 bounds.2) d.

End model.

(** The value of a result, or [a] if it is an exception *)
Definition payload {A} (a : A) (r : result A) : A :=
  match r with Ok a' => a' | Raise _ => a end.

(** What a run of a generator may do to the store apart from what it
    prints and sends: make new dict objects. *)
Definition only_allocates {elem R H} (w w' : world elem R H) : Prop :=
  (∀ l, l ∈ dom (heap w) → heap w' !! l = heap w !! l) ∧
  rnds w' = rnds w ∧ hstate w' = hstate w ∧ elapsed_str w' = elapsed_str w.

(** The order in which an iterator visits [indices] and the random
    sources afterwards, given the random sources before. *)
Definition shuffled {R} `{!RandomSource R} (self : seedable)
    (indices : list Z) (rs : gmap loc R) : list Z * gmap loc R :=
  if self_shuffle self then
    match rs !! self_rnd self with
    | Some r => ((rnd_shuffle indices r).1,
                 <[self_rnd self := (rnd_shuffle indices r).2]> rs)
    | None => (indices, rs)
    end
  else (indices, rs).

Section array_vocabulary.
Context {elem : Type}.

(** The elements of time step [r], all columns *)
Definition time_row (v : ndarray elem) (r : nat) : list elem :=
  match shape v with
  | t :: n :: rest => take (n * size_of rest) (drop (r * (n * size_of rest)) (flat v))
  | _ => []
  end.

(** [v[r, c]] flattened, at offset [f] *)
Definition item (v : ndarray elem) (r c f : nat) : option elem :=
  match shape v with
  | t :: n :: rest =>
      if decide (r < t ∧ c < n ∧ f < size_of rest)
      then flat v !! (r * (n * size_of rest) + c * size_of rest + f)
      else None
  | _ => None
  end.


End array_vocabulary.

(** ** Vocabulary of the properties *)

Section vocabulary.
Context {elem : Type}.

(** A valid named dataset with common batch-dimension size [n]: at least
    one name, every value an array of at least three dimensions with [n]
    as its second, and every buffer as long as its shape says *)
Definition valid_dataset (n : nat) (named_data : gmap string (pyobj elem)) : Prop :=
  named_data ≠ ∅ ∧ well_shaped n named_data ∧
  ∀ k a, named_data !! k = Some (PyArr a) → wf_array a.

(** [batch] has the names of [named_data], and maps each to an array
    with the dimensions of the original but [size] columns, which are the
    columns [start], [start + 1], ... of the original *)
Definition is_batch_slice (named_data : gmap string (pyobj elem))
    (start size : nat) (batch : gmap string (pyobj elem)) : Prop :=
  dom batch = dom named_data ∧
  ∀ k a, named_data !! k = Some (PyArr a) →
    ∃ a', batch !! k = Some (PyArr a') ∧
          shape a' = <[1 := size]> (shape a) ∧
          ∀ r c f, c < size → item a' r c f = item a r (start + c) f.


End vocabulary.

(** [math.ceil(n / b)] for a positive [b] *)
Definition ceil (n b : Z) : Z := (- (- n / b))%Z.



(** ** Stand-ins for the collaborators, and small datasets

    Used where a property is shown on a concrete input. *)

(** A random source whose shuffle reverses the sequence *)
Definition reversing_source : RandomSource unit :=
  {| rnd_of_seed _ := ();
     rnd_shuffle l r := (reverse l, r);
     rnd_shuffle_perm l _ := reverse_Permutation l |}.

(** A handler over integers whose noise is the constant [mean + std] *)
Definition constant_handler : Handler Z unit :=
  {| float_zero := 0%Z;
     zeros s := NDArray s (replicate (size_of s) 0%Z);
     fill_gaussian mean std out h :=
       (NDArray (shape out) (replicate (length (flat out)) (mean + std)%Z), h);
     add_tt a b out := NDArray (shape out) (zip_with Z.add (flat a) (flat b));
     zeros_shape _ := eq_refl;
     fill_gaussian_shape _ _ _ _ := eq_refl;
     add_tt_shape _ _ _ := eq_refl |}.

Definition empty_world : world Z unit unit :=
  World ∅ ∅ [] [] () "0:00:00".

(** [x] of shape [(1, 4, 1)] *)
Definition x4 : ndarray Z := NDArray [1; 4; 1] [10; 11; 12; 13]%Z.
(** [y] of shape [(2, 4, 1)] *)
Definition y4 : ndarray Z := NDArray [2; 4; 1] [0; 1; 2; 3; 4; 5; 6; 7]%Z.
(** an array of shape [(1, 0, 1)], with no sample *)
Definition x0 : ndarray Z := NDArray [1; 0; 1] [].

Definition data_x4 : gmap string (pyobj Z) := {[ "x"%string := PyArr x4 ]}.
Definition data_x0 : gmap string (pyobj Z) := {[ "x"%string := PyArr x0 ]}.

Definition data_xy : gmap string (pyobj Z) :=
  {[ "x"%string := PyArr x4; "y"%string := PyArr y4 ]}.

(** The batch-dimension size a batch has under a name *)
Definition batch_dim (k : string) (batch : gmap string (pyobj Z)) : option nat :=
  match batch !! k with
  | Some (PyArr a) => shape a !! 1
  | _ => None
  end.

(** [Undivided(x=x4, y=y4)] made in the empty store, and the store then *)
Definition undivided_xy : iterator (elem := Z) := Undivided (dom data_xy) 0 12.
Definition world_xy : world Z unit unit := World {[ 0 := data_xy ]} ∅ [] [] () "0:00:00".

(** [x] with the noise of [constant_handler] for a standard deviation of
    5, once and twice *)
Definition x4_noisy : ndarray Z := NDArray [1; 4; 1] [15; 16; 17; 18]%Z.
Definition x4_noisy_twice : ndarray Z := NDArray [1; 4; 1] [20; 21; 22; 23]%Z.

(** ** Vocabulary of the further properties *)

(** What a coroutine answers to a sequence of sends, up to the first that
    raises *)
Fixpoint sends (elapsed : string) (p_bar : p_bar_state) (progresses : list Z)
    : list string :=
  match progresses with
  | [] => []
  | progress :: progresses =>
      match send elapsed p_bar progress with
      | Ok (out, p_bar) => out :: sends elapsed p_bar progresses
      | Raise _ => []
      end
  end.


(** [(self.verbose is None and verbose) or self.verbose], as a truth value *)
Definition effective_verbose (self : seedable) (verbose : bool) : bool :=
  match self_verbose self with None => verbose | Some b => b end.








(** * Properties *)

(** ** Results *)

Lemma bind_Ok {A B} (r : result A) (k : A → result B) b :
  r ≫= k = Ok b ↔ ∃ a, r = Ok a ∧ k a = Ok b.
Proof.
  destruct r as [a|e]; simpl; split.
  - eauto.
  - by intros (a' & [= <-] & ?).
  - done.
  - by intros (? & ? & ?).
Qed.

(** ** The shape validator *)

Section validator_facts.
Context {elem : Type}.
Implicit Types (named_data : gmap string (pyobj elem)) (o : pyobj elem).
Implicit Types (items : list (string * pyobj elem)).

Lemma foldl_min_spec (l : list Z) (x : Z) :
  foldl Z.min x l ∈ x :: l ∧ ∀ y, y ∈ x :: l → (foldl Z.min x l ≤ y)%Z.
Proof.
  revert x. induction l as [|z l IH]; intros x; simpl.
  - split; [left|]. intros y ->%list_elem_of_singleton. lia.
  - destruct (IH (Z.min x z)) as [Hin Hle]. split.
    + apply elem_of_cons in Hin as [->|Hin].
      * rewrite !elem_of_cons. destruct (Z.min_spec x z) as [[_ ->]|[_ ->]]; auto.
      * rewrite !elem_of_cons. auto.
    + intros y Hy. pose proof (Hle (Z.min x z) ltac:(left)) as Hxz.
      apply elem_of_cons in Hy as [->|Hy]; [lia|].
      apply elem_of_cons in Hy as [->|Hy]; [lia|].
      apply Hle. by right.
Qed.

Lemma foldl_max_spec (l : list Z) (x : Z) :
  foldl Z.max x l ∈ x :: l ∧ ∀ y, y ∈ x :: l → (y ≤ foldl Z.max x l)%Z.
Proof.
  revert x. induction l as [|z l IH]; intros x; simpl.
  - split; [left|]. intros y ->%list_elem_of_singleton. lia.
  - destruct (IH (Z.max x z)) as [Hin Hle]. split.
    + apply elem_of_cons in Hin as [->|Hin].
      * rewrite !elem_of_cons. destruct (Z.max_spec x z) as [[_ ->]|[_ ->]]; auto.
      * rewrite !elem_of_cons. auto.
    + intros y Hy. pose proof (Hle (Z.max x z) ltac:(left)) as Hxz.
      apply elem_of_cons in Hy as [->|Hy]; [lia|].
      apply elem_of_cons in Hy as [->|Hy]; [lia|].
      apply Hle. by right.
Qed.

(** On a non-empty sequence [min] and [max] return, and they agree exactly
    when all elements are the same. *)
Lemma py_min_max (l : list Z) :
  l ≠ [] →
  ∃ lo hi, py_min l = Ok lo ∧ py_max l = Ok hi ∧ lo ∈ l ∧ hi ∈ l ∧
    (lo = hi → ∀ x y, x ∈ l → y ∈ l → x = y).
Proof.
  destruct l as [|x l]; [done|intros _].
  destruct (foldl_min_spec l x) as [Hmin Hle].
  destruct (foldl_max_spec l x) as [Hmax Hge].
  eexists _, _. split_and!; [done..|].
  intros Heq a b Ha Hb.
  pose proof (Hle a Ha). pose proof (Hle b Hb).
  pose proof (Hge a Ha). pose proof (Hge b Hb). lia.
Qed.

Lemma collect_nr_sequences_raise items acc e :
  collect_nr_sequences items acc = Raise e →
  (∃ msg, e = IteratorValidationError msg) ∧ ∃ k o, (k, o) ∈ items ∧ ¬ acceptable o.
Proof.
  revert acc. induction items as [|[k o] items IH]; intros acc; simpl; [done|].
  destruct o as [a|].
  - destruct (Nat.ltb_spec (length (shape a)) 3) as [Hlt|Hge].
    + intros [= <-]. split; [eauto|]. exists k, (PyArr a). split; [left|].
      intros (a' & [= <-] & ?). lia.
    + intros (? & k' & o' & ? & ?)%IH. split; [done|].
      exists k', o'. split; [by right|done].
  - intros [= <-]. split; [eauto|]. exists k, PyOther. split; [left|].
    by intros (? & ? & ?).
Qed.

Lemma collect_nr_sequences_Ok_inv items acc nr :
  collect_nr_sequences items acc = Ok nr → Forall (λ kv, acceptable kv.2) items.
Proof.
  revert acc. induction items as [|[k o] items IH]; intros acc; simpl; [by constructor|].
  destruct o as [a|]; [|done].
  destruct (Nat.ltb_spec (length (shape a)) 3) as [Hlt|Hge]; [done|].
  intros Hrest%IH. constructor; [|done]. exists a. split; [done|lia].
Qed.

Lemma collect_nr_sequences_ok items acc :
  Forall (λ kv, acceptable kv.2) items →
  collect_nr_sequences items acc =
    Ok (foldl (λ m kv, <[kv.1 := recorded kv.2]> m) acc items).
Proof.
  revert acc. induction items as [|[k o] items IH]; intros acc Hall; simpl; [done|].
  apply Forall_cons in Hall as [Ho Hall]. simpl in Ho.
  destruct Ho as (a & -> & Hdim).
  destruct (Nat.ltb_spec (length (shape a)) 3); [lia|]. by apply IH.
Qed.

Lemma foldl_insert_recorded (items : list (string * pyobj elem)) (acc : gmap string Z) k :
  NoDup items.*1 →
  foldl (λ m kv, <[kv.1 := recorded kv.2]> m) acc items !! k =
    match list_to_map (M := gmap string (pyobj elem)) items !! k with
    | Some o => Some (recorded o)
    | None => acc !! k
    end.
Proof.
  revert acc. induction items as [|[k' o] items IH]; intros acc Hnd; simpl; [done|].
  apply NoDup_cons in Hnd as [Hk' Hnd]. rewrite IH by done.
  destruct (decide (k' = k)) as [->|Hne].
  - rewrite (not_elem_of_list_to_map_1 (M := gmap string) items k Hk').
    by rewrite !lookup_insert_eq.
  - by rewrite !lookup_insert_ne.
Qed.

Lemma collect_nr_sequences_map named_data :
  map_Forall (λ _ o, acceptable o) named_data →
  collect_nr_sequences (map_to_list named_data) ∅ = Ok (recorded <$> named_data).
Proof.
  intros Hall. rewrite collect_nr_sequences_ok.
  - f_equal. apply map_eq. intros k.
    rewrite foldl_insert_recorded by apply NoDup_fst_map_to_list.
    rewrite list_to_map_to_list, lookup_fmap, lookup_empty.
    by destruct (named_data !! k).
  - apply Forall_forall. intros [k o] Hin%elem_of_map_to_list. by apply (Hall k o).
Qed.

Lemma elem_of_values_recorded named_data (z : Z) :
  z ∈ values (recorded <$> named_data) ↔ ∃ k o, named_data !! k = Some o ∧ z = recorded o.
Proof.
  unfold values. rewrite list_elem_of_fmap. split.
  - intros ([k z'] & -> & Hin). apply elem_of_map_to_list in Hin.
    rewrite lookup_fmap in Hin. destruct (named_data !! k) as [o|] eqn:Hk; [|done].
    injection Hin as <-. eauto.
  - intros (k & o & Hk & ->). exists (k, recorded o). split; [done|].
    apply elem_of_map_to_list. by rewrite lookup_fmap, Hk.
Qed.

Lemma not_acceptable named_data k o :
  named_data !! k = Some o → ¬ acceptable o →
  lacks_shape named_data ∨ too_few_dims named_data.
Proof.
  intros Hk Hno. destruct o as [a|]; [|left; by exists k].
  right. exists k, a. split; [done|].
  destruct (decide (length (shape a) < 3)); [done|].
  exfalso. apply Hno. exists a. split; [done|lia].
Qed.

Lemma acceptable_recorded o :
  acceptable o → ∃ a n, o = PyArr a ∧ shape a !! 1 = Some n ∧ recorded o = Z.of_nat n.
Proof.
  intros (a & -> & Hdim). destruct (shape a) as [|t [|n rest]] eqn:Hs; simpl in *; [lia..|].
  exists a, n. by rewrite Hs.
Qed.

Lemma shape_lookup_nth (a : ndarray elem) n :
  shape a !! 1 = Some n → nth 1 (shape a) 0 = n.
Proof. destruct (shape a) as [|t [|n' rest]]; naive_solver. Qed.

(** What the validator does with a non-empty dataset, case by case *)
Lemma assert_correct_data_format_cases named_data :
  named_data ≠ ∅ →
  (is_validation_error (_assert_correct_data_format named_data) ∧
     (lacks_shape named_data ∨ too_few_dims named_data ∨ sizes_disagree named_data)) ∨
  (∃ n, _assert_correct_data_format named_data = Ok (Z.of_nat n) ∧
     well_shaped n named_data ∧
     ¬ (lacks_shape named_data ∨ too_few_dims named_data ∨ sizes_disagree named_data)).
Proof.
  intros Hne. unfold _assert_correct_data_format.
  destruct (collect_nr_sequences (map_to_list named_data) ∅) as [nr|e] eqn:Hcol.
  - assert (map_Forall (λ _ o, acceptable o) named_data) as Hacc.
    { intros k o Hk%elem_of_map_to_list.
      apply collect_nr_sequences_Ok_inv in Hcol.
      by apply (proj1 (Forall_forall _ _) Hcol (k, o)). }
    rewrite collect_nr_sequences_map in Hcol by done. injection Hcol as <-.
    assert (values (recorded <$> named_data) ≠ []) as Hvals.
    { unfold values. intros Hnil%fmap_nil_inv%map_to_list_empty_iff.
      by apply fmap_empty_inv in Hnil. }
    destruct (py_min_max _ Hvals) as (lo & hi & Hlo & Hhi & Hlo_in & Hhi_in & Hsame).
    simpl. rewrite Hlo. simpl. rewrite Hhi. simpl.
    apply elem_of_values_recorded in Hlo_in as (k1 & o1 & Hk1 & Ho1).
    apply elem_of_values_recorded in Hhi_in as (k2 & o2 & Hk2 & Ho2).
    destruct (acceptable_recorded o1) as (a1 & n1 & -> & Hn1 & Hr1); [by eapply Hacc|].
    destruct (acceptable_recorded o2) as (a2 & n2 & -> & Hn2 & Hr2); [by eapply Hacc|].
    case_decide as Hdiff.
    + left. split; [by eexists|]. right; right.
      exists k1, a1, n1, k2, a2, n2. split_and!; [done..|]. intros ->. congruence.
    + right. exists n1. split; [congruence|].
      assert (lo = hi) as Heq by (destruct (decide (lo = hi)); done).
      assert (∀ k o, named_data !! k = Some o → recorded o = Z.of_nat n1) as Hall.
      { intros k o Hk. rewrite <-Hr1, <-Ho1. apply (Hsame Heq).
        - apply elem_of_values_recorded. eauto.
        - apply elem_of_values_recorded. eauto. }
      split.
      * intros k o Hk.
        destruct (acceptable_recorded o) as (a & n & -> & Hn & Hr); [by eapply Hacc|].
        destruct (Hacc k _ Hk) as (a' & [= <-] & Hdim).
        exists a. split_and!; [done..|].
        rewrite (Hall k _ Hk) in Hr. by replace n1 with n by lia.
      * intros [(k & Hk)|[(k & a & Hk & Hdim)|(k & a & n & k' & a' & n' & Hk & Hn & Hk' & Hn' & Hneq)]].
        -- by destruct (Hacc k _ Hk) as (? & ? & ?).
        -- destruct (Hacc k _ Hk) as (? & [= <-] & ?). lia.
        -- apply Hneq.
           pose proof (Hall k _ Hk) as Hr. pose proof (Hall k' _ Hk') as Hr'. simpl in *.
           rewrite (shape_lookup_nth _ _ Hn) in Hr.
           rewrite (shape_lookup_nth _ _ Hn') in Hr'. lia.
  - left. apply collect_nr_sequences_raise in Hcol as ([msg ->] & k & o & Hin & Hno).
    split; [by exists msg|]. apply elem_of_map_to_list in Hin.
    destruct (not_acceptable _ _ _ Hin Hno); auto.
Qed.

(** C4. For a non-empty named dataset the shape validator returns the
    common second-axis size when every value is an array of at least three
    dimensions and all second-axis sizes agree, and it raises
    [IteratorValidationError] exactly when some value has no shape, some
    array has fewer than three dimensions, or two second-axis sizes
    differ; nothing else can happen. *)
Theorem C4_assert_correct_data_format named_data :
  named_data ≠ ∅ →
  (∀ n, well_shaped n named_data →
        _assert_correct_data_format named_data = Ok (Z.of_nat n)) ∧
  (is_validation_error (_assert_correct_data_format named_data) ↔
     lacks_shape named_data ∨ too_few_dims named_data ∨ sizes_disagree named_data) ∧
  (is_validation_error (_assert_correct_data_format named_data) ∨
     ∃ n, _assert_correct_data_format named_data = Ok (Z.of_nat n) ∧
          well_shaped n named_data).
Proof.
  intros Hne.
  destruct (assert_correct_data_format_cases named_data Hne)
    as [[Herr Hbad]|(n & Hok & Hshaped & Hgood)].
  - split_and!; [|done|by left].
    intros n Hshaped. exfalso.
    destruct Hbad as [(k & Hk)|[(k & a & Hk & Hdim)|(k & a & m & k' & a' & m' & Hk & Hm & Hk' & Hm' & Hneq)]].
    + by destruct (Hshaped k _ Hk) as (? & ? & ?).
    + destruct (Hshaped k _ Hk) as (? & [= <-] & ? & ?). lia.
    + destruct (Hshaped k _ Hk) as (? & [= <-] & ? & ?).
      destruct (Hshaped k' _ Hk') as (? & [= <-] & ? & ?). congruence.
  - split_and!.
    + intros m Hm. rewrite Hok. do 2 f_equal.
      apply map_choose in Hne as (k & o & Hk).
      destruct (Hshaped k _ Hk) as (? & -> & ? & ?).
      destruct (Hm k _ Hk) as (? & [= <-] & ? & ?). congruence.
    + split; [|done]. intros [msg Hmsg]. congruence.
    + right. eauto.
Qed.

End validator_facts.

(** ** Dict comprehensions *)

Section comprehension_facts.
Context {elem : Type}.
Implicit Types (d : gmap string (pyobj elem)) (f : pyobj elem → result (pyobj elem)).


Lemma mapM_items_Ok f (items : list (string * pyobj elem)) :
  Forall (λ kv, ∃ o', f kv.2 = Ok o') items →
  mapM (λ kv, v' ← f kv.2; Ok (kv.1, v')) items =
    Ok (prod_map id (λ o, payload o (f o)) <$> items).
Proof.
  induction 1 as [|[k o] items [o' Ho'] _ IH]; [done|].
  simpl in *. rewrite Ho'. simpl. by rewrite IH.
Qed.


(** A comprehension succeeds exactly when its function does on every
    value, and then it maps the values and keeps the keys. *)
Lemma dict_comprehension_Ok f d :
  (∀ k o, d !! k = Some o → ∃ o', f o = Ok o') →
  dict_comprehension f d = Ok ((λ o, payload o (f o)) <$> d).
Proof.
  intros Hall. unfold dict_comprehension. rewrite mapM_items_Ok.
  - simpl. by rewrite list_to_map_fmap, list_to_map_to_list.
  - apply Forall_forall. intros [k o] Hin%elem_of_map_to_list. by apply (Hall k).
Qed.



End comprehension_facts.

(** ** The progress coroutine *)

Lemma len_bar : len bar = 50%Z.
Proof. reflexivity. Qed.

Lemma send_ready (progress : Z → Z) elapsed p_bar i n :
  p_bar_ready progress p_bar i (S n) →
  ∃ out p_bar', send elapsed p_bar (progress i) = Ok (out, p_bar') ∧
                p_bar_ready progress p_bar' (i + 1) n.
Proof.
  destruct p_bar as [|maximum j|]; simpl.
  - eauto.
  - intros [Hmax Hbelow]; [done|].
    rewrite decide_False by lia. rewrite len_bar.
    destruct (Z.ltb_spec (progress i * 50 ÷ maximum) 50) as [Hlt|Hge].
    + eexists _, _. split; [done|]. simpl. intros Hn. split; [done|].
      intros k Hk. apply Hbelow. lia.
    + eexists _, _. split; [done|]. simpl.
      destruct n as [|n]; [done|]. exfalso.
      destruct (Hbelow i) as [Hlo Hhi]; [lia|].
      rewrite Z.quot_div_nonneg in Hge by lia.
      apply Z.le_ngt in Hge. apply Hge. apply Z.div_lt_upper_bound; lia.
  - done.
Qed.

(** ** The generators of [Online] and [Minibatches] *)

Section model_facts.
Context {elem R H : Type} `{!RandomSource R} `{!Handler elem H}.
Implicit Types (w : world elem R H) (d : gmap string (pyobj elem)).
Implicit Types (g : generator (elem := elem)).


Lemma only_allocates_refl w : only_allocates w w.
Proof. done. Qed.

Lemma only_allocates_trans w1 w2 w3 :
  only_allocates w1 w2 → only_allocates w2 w3 → only_allocates w1 w3.
Proof.
  intros (Hh1 & ? & ? & ?) (Hh2 & ? & ? & ?). split_and!; [|congruence..].
  intros l Hl. rewrite <-Hh1 by done. apply Hh2.
  apply elem_of_dom. rewrite Hh1 by done. by apply elem_of_dom.
Qed.

Lemma alloc_fresh d w : (alloc d w).1 ∉ dom (heap w).
Proof. apply is_fresh. Qed.

Lemma alloc_lookup d w : heap (alloc d w).2 !! (alloc d w).1 = Some d.
Proof. simpl. apply lookup_insert_eq. Qed.

Lemma alloc_only_allocates d w : only_allocates w (alloc d w).2.
Proof.
  split_and!; [|done..]. intros l Hl. simpl.
  apply lookup_insert_ne. intros <-. by apply (alloc_fresh d w).
Qed.

Lemma print_only_allocates s w : only_allocates w (print s w).
Proof. done. Qed.

Lemma log_sent_only_allocates z w : only_allocates w (log_sent z w).
Proof. done. Qed.

Section loop.
Context (self : seedable) (mk : frame → generator (elem := elem))
  (indices0 : result (list Z)) (chunk : Z → Z * Z) (progress : Z → Z)
  (verbose : bool).
Hypothesis gen_next_mk : ∀ fr w,
  gen_next (mk fr) w = loop_next self mk indices0 chunk progress verbose fr w.

(** From the head of the loop, with the dataset in place, the slices
    defined and the coroutine able to take the sends to come, the
    generator yields one batch for each index in turn and ends; it sends
    [progress i] after the batch of iteration [i]. *)
Lemma consume_loop_yield d indices : ∀ p_bar i w fuel,
  heap w !! self_data self = Some d →
  Forall (λ idx, ∃ batch, batch_of d (chunk idx) = Ok batch) indices →
  p_bar_ready progress p_bar i (length indices) →
  length indices ≤ fuel →
  ∃ batches w',
    after_step (consume fuel) (loop_yield self mk chunk p_bar i indices w)
      = Some (batches, None, w') ∧
    Forall2 (λ idx batch, batch_of d (chunk idx) = Ok batch) indices batches.*2 ∧
    Forall (λ l, l ∉ dom (heap w)) batches.*1 ∧
    sent w' = sent w ++ (progress <$> seqZ i (Z.of_nat (length indices))) ∧
    only_allocates w w'.
Proof.
  induction indices as [|idx rest IH]; intros p_bar i w fuel Hd Hslices Hready Hfuel.
  - exists [], w. simpl. split_and!; [done|constructor|constructor| |done].
    by rewrite app_nil_r.
  - apply Forall_cons in Hslices as [[batch Hbatch] Hslices].
    destruct fuel as [|fuel]; [simpl in Hfuel; lia|].
    simpl in Hfuel. apply Nat.succ_le_mono in Hfuel.
    unfold loop_yield. rewrite Hd. fold (batch_of d (chunk idx)). rewrite Hbatch.
    pose proof (alloc_fresh batch w) as Hfresh.
    pose proof (alloc_lookup batch w) as Hl.
    pose proof (alloc_only_allocates batch w) as Hw1.
    assert (sent (alloc batch w).2 = sent w) as Hsent1 by done.
    destruct (alloc batch w) as [l w1]. simpl in Hfresh, Hl, Hw1, Hsent1.
    unfold after_step. simpl consume. rewrite gen_next_mk. unfold loop_next.
    destruct (send_ready progress (elapsed_str (log_sent (progress i) w1)) p_bar i
                (length rest) Hready) as (out & p_bar' & Hsend & Hready').
    rewrite Hsend.
    set (w2 := print out (log_sent (progress i) w1)).
    assert (only_allocates w1 w2) as Hw2 by done.
    assert (heap w2 !! self_data self = Some d) as Hd2.
    { simpl. destruct Hw1 as [Hh _]. rewrite Hh; [done|]. by apply elem_of_dom. }
    destruct (IH p_bar' (i + 1)%Z w2 fuel Hd2 Hslices Hready' Hfuel)
      as (batches & w' & Hrun & Hbatches & Hnew & Hsent & Hw').
    fold (loop_yield self mk chunk p_bar' (i + 1) rest w2).
    rewrite Hrun. simpl.
    eexists _, w'. split_and!; [done| | | |].
    + simpl. rewrite Hl. simpl. by constructor.
    + simpl. constructor; [done|].
      eapply Forall_impl; [exact Hnew|]. simpl. intros l' Hl' Hin. apply Hl'.
      destruct Hw1 as [Hh _]. apply elem_of_dom. rewrite Hh by done. by apply elem_of_dom.
    + rewrite Hsent. unfold w2. simpl sent. rewrite Hsent1, <-app_assoc. f_equal.
      rewrite Nat2Z.inj_succ, (seqZ_cons i) by lia.
      by rewrite Z.pred_succ, Z.add_1_r.
    + eapply only_allocates_trans; [exact Hw1|].
      eapply only_allocates_trans; [exact Hw2|done].
Qed.

End loop.
End model_facts.

Section start_facts.
Context {elem R H : Type} `{!RandomSource R} `{!Handler elem H}.
Implicit Types (w : world elem R H) (d : gmap string (pyobj elem)).


Lemma shuffled_perm (self : seedable) indices (rs : gmap loc R) :
  (shuffled self indices rs).1 ≡ₚ indices.
Proof.
  unfold shuffled. destruct (self_shuffle self); [|done].
  destruct (rs !! self_rnd self); [|done]. apply rnd_shuffle_perm.
Qed.

Lemma shuffled_off (self : seedable) indices (rs : gmap loc R) :
  self_shuffle self = false → shuffled self indices rs = (indices, rs).
Proof. unfold shuffled. by intros ->. Qed.

Lemma shuffle_indices_Ok (self : seedable) indices w :
  (self_shuffle self = true → is_Some (rnds w !! self_rnd self)) →
  shuffle_indices self indices w =
    Ok ((shuffled self indices (rnds w)).1,
        set_rnds (λ _, (shuffled self indices (rnds w)).2) w).
Proof.
  unfold shuffle_indices, shuffled. destruct (self_shuffle self).
  - intros [r ->]; [done|]. by destruct (rnd_shuffle indices r).
  - intros _. by destruct w.
Qed.

Section loop.
Context (self : seedable) (mk : frame → generator (elem := elem))
  (indices0 : result (list Z)) (chunk : Z → Z * Z) (progress : Z → Z)
  (verbose : bool).
Hypothesis gen_next_mk : ∀ fr w,
  gen_next (mk fr) w = loop_next self mk indices0 chunk progress verbose fr w.

(** A whole run of the generator, from its creation to its end *)
Lemma consume_loop_start d indices w fuel :
  indices0 = Ok indices →
  heap w !! self_data self = Some d →
  (self_shuffle self = true → is_Some (rnds w !! self_rnd self)) →
  Forall (λ idx, ∃ batch, batch_of d (chunk idx) = Ok batch) indices →
  p_bar_ready progress (BarLoop (self_nr_sequences self) 0) 0 (length indices) →
  length indices < fuel →
  ∃ batches w',
    consume fuel (mk Start) w = Some (batches, None, w') ∧
    Forall2 (λ idx batch, batch_of d (chunk idx) = Ok batch)
      (shuffled self indices (rnds w)).1 batches.*2 ∧
    Forall (λ l, l ∉ dom (heap w)) batches.*1 ∧
    sent w' = sent w ++ (progress <$> seqZ 0 (Z.of_nat (length indices))) ∧
    (∀ l, l ∈ dom (heap w) → heap w' !! l = heap w !! l) ∧
    rnds w' = (shuffled self indices (rnds w)).2 ∧
    hstate w' = hstate w.
Proof.
  intros Hind Hd Hrnd Hslices Hready Hfuel.
  destruct fuel as [|fuel]; [lia|]. apply Nat.succ_le_mono in Hfuel.
  simpl consume. rewrite gen_next_mk. unfold loop_next.
  destruct (start_p_bar self verbose w) as [p_bar w1] eqn:Hstart.
  assert (only_allocates w w1 ∧ sent w1 = sent w ∧
          p_bar_ready progress p_bar 0 (length indices)) as (Hw1 & Hsent1 & Hready1).
  { unfold start_p_bar in Hstart.
    destruct (match self_verbose self with Some b => b | None => verbose end);
      simpl in Hstart; injection Hstart as <- <-; done. }
  rewrite Hind.
  rewrite shuffle_indices_Ok; last first.
  { intros Hs. destruct Hw1 as (_ & -> & _). auto. }
  set (order := (shuffled self indices (rnds w1)).1).
  set (w2 := set_rnds _ w1).
  assert (order ≡ₚ indices) as Hperm by apply shuffled_perm.
  destruct (consume_loop_yield self mk indices0 chunk progress verbose gen_next_mk
              d order p_bar 0%Z w2 fuel) as (batches & w' & Hrun & Hbatches & Hnew & Hsent & Hw').
  - simpl. destruct Hw1 as [Hh _]. rewrite Hh; [done|]. by apply elem_of_dom.
  - by rewrite Hperm.
  - by rewrite Hperm.
  - by rewrite Hperm.
  - exists batches, w'. destruct Hw1 as (Hh1 & Hr1 & Hs1 & He1).
    destruct Hw' as (Hh' & Hr' & Hs' & He').
    assert (∀ l, l ∈ dom (heap w) → l ∈ dom (heap w1)) as Hdom.
    { intros l Hl. apply elem_of_dom. rewrite Hh1 by done. by apply elem_of_dom. }
    split_and!.
    + done.
    + subst order. by rewrite Hr1 in Hbatches.
    + eapply Forall_impl; [exact Hnew|]. simpl. intros l Hl Hin. apply Hl. by apply Hdom.
    + rewrite Hsent. simpl. by rewrite Hsent1, Hperm.
    + intros l Hl. rewrite <-Hh1 by done. apply Hh'. simpl. by apply Hdom.
    + rewrite Hr'. simpl. by rewrite Hr1.
    + rewrite Hs'. simpl. done.
Qed.

End loop.
End start_facts.

(** ** Arrays and their slices *)

Section array_facts.
Context {elem : Type}.
Implicit Types (v : ndarray elem) (l : list elem).



(** The [r]-th piece of a join of pieces of [w] elements each *)
Lemma join_block w (bs : list (list elem)) r :
  Forall (λ b, length b = w) bs →
  take w (drop (r * w) (mjoin bs)) = default [] (bs !! r).
Proof.
  intros Hall. revert r. induction Hall as [|b bs Hb _ IH]; intros r; simpl.
  - by rewrite drop_nil, take_nil.
  - destruct r as [|r]; simpl.
    + by apply take_app_length'.
    + rewrite drop_app_ge by lia. rewrite <-(IH r). do 2 f_equal. lia.
Qed.

Lemma slice_bound_nonneg n i : (0 ≤ i)%Z → slice_bound n i = Z.min i n.
Proof. intros Hi. unfold slice_bound. by destruct (Z.ltb_spec i 0); [lia|]. Qed.

Lemma slice_start_le n start : (0 ≤ start)%Z → slice_start (Z.of_nat n) start ≤ n.
Proof. intros Hs. unfold slice_start. rewrite slice_bound_nonneg by done. lia. Qed.

Lemma slice_len_le n start stop :
  (0 ≤ start)%Z → (0 ≤ stop)%Z →
  slice_start (Z.of_nat n) start + slice_len (Z.of_nat n) start stop ≤ n.
Proof.
  intros Hs He. unfold slice_start, slice_len. rewrite !slice_bound_nonneg by done. lia.
Qed.

(** The slice [idx : idx + 1] of a dimension that has an index [idx] *)
Lemma slice_one n idx :
  (0 ≤ idx < Z.of_nat n)%Z →
  slice_start (Z.of_nat n) idx = Z.to_nat idx ∧
  slice_len (Z.of_nat n) idx (idx + 1) = 1.
Proof.
  intros Hidx. unfold slice_start, slice_len. rewrite !slice_bound_nonneg by lia. lia.
Qed.


Lemma getitem_batch_Ok v t n rest start stop :
  shape v = t :: n :: rest →
  ∃ v', getitem_batch v start stop = Ok v' ∧
        shape v' = t :: slice_len (Z.of_nat n) start stop :: rest.
Proof. intros Hs. unfold getitem_batch. rewrite Hs. eauto. Qed.

(** The pieces a slice is joined from have the length they should. *)
Lemma slice_piece_length v t n rest off len r :
  wf_array v → shape v = t :: n :: rest → off + len ≤ n → r < t →
  length (take (len * size_of rest)
            (drop (r * (n * size_of rest) + off * size_of rest) (flat v)))
    = len * size_of rest.
Proof.
  intros Hwf Hs Hle Hr. unfold wf_array in Hwf. rewrite Hs in Hwf. simpl in Hwf.
  rewrite length_take, length_drop, Hwf.
  assert (r * (n * size_of rest) + n * size_of rest ≤ t * (n * size_of rest)) by nia.
  assert (off * size_of rest + len * size_of rest ≤ n * size_of rest) by nia.
  lia.
Qed.

Lemma slice_piece_row v t n rest off len r :
  shape v = t :: n :: rest → off + len ≤ n →
  take (len * size_of rest)
    (drop (r * (n * size_of rest) + off * size_of rest) (flat v))
  = take (len * size_of rest) (drop (off * size_of rest) (time_row v r)).
Proof.
  intros Hs Hle. unfold time_row. rewrite Hs.
  assert (off * size_of rest + len * size_of rest ≤ n * size_of rest) by nia.
  rewrite (take_drop_commute (flat v) (n * size_of rest)), drop_drop.
  rewrite (take_drop_commute (take _ _)), take_take.
  rewrite (take_drop_commute (flat v)). do 2 f_equal. lia.
Qed.

Lemma getitem_batch_wf v v' start stop :
  wf_array v → (0 ≤ start)%Z → (0 ≤ stop)%Z →
  getitem_batch v start stop = Ok v' → wf_array v'.
Proof.
  intros Hwf Hs He. unfold getitem_batch.
  destruct (shape v) as [|t [|n rest]] eqn:Hshape; [done..|]. intros [= <-].
  unfold wf_array. simpl. rewrite length_join.
  pose proof (slice_len_le n start stop Hs He) as Hle.
  rewrite <-list_fmap_compose.
  rewrite (sum_list_fmap_same (slice_len (Z.of_nat n) start stop * size_of rest)).
  - rewrite length_seq. lia.
  - apply Forall_forall. intros r Hr%elem_of_seq. simpl.
    apply (slice_piece_length v t n rest); [done..|lia].
Qed.

(** A time step of a slice is the same columns of that time step. *)
Lemma time_row_getitem_batch v v' t n rest start stop r :
  wf_array v → shape v = t :: n :: rest → (0 ≤ start)%Z → (0 ≤ stop)%Z → r < t →
  getitem_batch v start stop = Ok v' →
  time_row v' r =
    take (slice_len (Z.of_nat n) start stop * size_of rest)
      (drop (slice_start (Z.of_nat n) start * size_of rest) (time_row v r)).
Proof.
  intros Hwf Hshape Hs He Hr. unfold getitem_batch. rewrite Hshape. intros [= <-].
  pose proof (slice_len_le n start stop Hs He) as Hle.
  unfold time_row at 1. simpl. rewrite join_block.
  - rewrite list_lookup_fmap, lookup_seq_lt by done. simpl.
    by apply (slice_piece_row v t n rest).
  - apply Forall_fmap, Forall_forall. intros r' Hr'%elem_of_seq. simpl.
    apply (slice_piece_length v t n rest); [done..|lia].
Qed.


Lemma length_time_row v t n rest r :
  wf_array v → shape v = t :: n :: rest → r < t →
  length (time_row v r) = n * size_of rest.
Proof.
  intros Hwf Hs Hr. unfold time_row. rewrite Hs.
  unfold wf_array in Hwf. rewrite Hs in Hwf. simpl in Hwf.
  rewrite length_take, length_drop, Hwf.
  assert (r * (n * size_of rest) + n * size_of rest ≤ t * (n * size_of rest)) by nia.
  lia.
Qed.


(** An element of a slice is the element of the array [start] columns
    to the right. *)
Lemma item_getitem_batch v v' t n rest start stop r c f :
  wf_array v → shape v = t :: n :: rest → (0 ≤ start)%Z → (0 ≤ stop)%Z →
  getitem_batch v start stop = Ok v' →
  r < t → c < slice_len (Z.of_nat n) start stop → f < size_of rest →
  item v' r c f = item v r (slice_start (Z.of_nat n) start + c) f ∧
  is_Some (item v' r c f).
Proof.
  intros Hwf Hshape Hs He Hget Hr Hc Hf.
  pose proof (slice_len_le n start stop Hs He) as Hle.
  pose proof (time_row_getitem_batch v v' t n rest start stop r Hwf Hshape Hs He Hr Hget)
    as Hrow.
  destruct (getitem_batch_Ok v t n rest start stop Hshape) as (v'' & Hget' & Hshape').
  rewrite Hget in Hget'. injection Hget' as <-.
  set (len := slice_len (Z.of_nat n) start stop) in *.
  set (off := slice_start (Z.of_nat n) start) in *.
  set (p := size_of rest) in *.
  assert (c * p + f < len * p) as Hin by nia.
  assert ((off + c) * p + f < n * p) as Hin' by nia.
  assert (item v' r c f = time_row v' r !! (c * p + f)) as ->.
  { unfold item, time_row. rewrite Hshape'. fold p.
    rewrite decide_True by done.
    rewrite lookup_take_lt, lookup_drop by done. f_equal. lia. }
  assert (item v r (off + c) f = time_row v r !! ((off + c) * p + f)) as ->.
  { unfold item, time_row. rewrite Hshape. fold p.
    rewrite decide_True by (split_and!; [done|lia|done]).
    rewrite lookup_take_lt, lookup_drop by done. f_equal. lia. }
  rewrite Hrow, lookup_take_lt, lookup_drop by done.
  split; [f_equal; lia|].
  apply lookup_lt_is_Some. rewrite (length_time_row v t n rest) by done. lia.
Qed.





End array_facts.

(** ** Batches cut out of a valid dataset *)

Section batch_facts.
Context {elem : Type}.
Implicit Types (named_data batch : gmap string (pyobj elem)).

Lemma assert_correct_data_format_valid n named_data :
  valid_dataset n named_data →
  _assert_correct_data_format named_data = Ok (Z.of_nat n).
Proof.
  intros (Hne & Hshaped & _).
  destruct (assert_correct_data_format_cases named_data Hne)
    as [[_ Hbad]|(m & Hok & Hm & _)].
  - exfalso.
    destruct Hbad as [(k & Hk)|[(k & a & Hk & Hdim)|(k & a & m & k' & a' & m' & Hk & Hm & Hk' & Hm' & Hneq)]].
    + by destruct (Hshaped k _ Hk) as (? & ? & ?).
    + destruct (Hshaped k _ Hk) as (? & [= <-] & ? & ?). lia.
    + destruct (Hshaped k _ Hk) as (? & [= <-] & ? & ?).
      destruct (Hshaped k' _ Hk') as (? & [= <-] & ? & ?). congruence.
  - rewrite Hok. do 2 f_equal.
    apply map_choose in Hne as (k & o & Hk).
    destruct (Hshaped k _ Hk) as (? & -> & ? & ?).
    destruct (Hm k _ Hk) as (? & [= <-] & ? & ?). congruence.
Qed.

Lemma well_shaped_shape n named_data k o :
  well_shaped n named_data → named_data !! k = Some o →
  ∃ a t rest, o = PyArr a ∧ shape a = t :: n :: rest.
Proof.
  intros Hshaped Hk. destruct (Hshaped k o Hk) as (a & -> & Hdim & Hn).
  destruct (shape a) as [|t [|n' rest]] eqn:Hs; simpl in *; [lia..|].
  injection Hn as ->. eauto.
Qed.

(** Every slice of a valid dataset between non-negative bounds is
    defined, and is the batch of the columns the bounds select. *)
Lemma batch_of_valid n named_data start stop :
  valid_dataset n named_data → (0 ≤ start)%Z → (0 ≤ stop)%Z →
  ∃ batch,
    batch_of named_data (start, stop) = Ok batch ∧
    is_batch_slice named_data (slice_start (Z.of_nat n) start)
      (slice_len (Z.of_nat n) start stop) batch.
Proof.
  intros (Hne & Hshaped & Hwf) Hs He.
  assert (∀ k o, named_data !! k = Some o →
            ∃ o', getitem_batch_obj o start stop = Ok o') as Hall.
  { intros k o Hk.
    destruct (well_shaped_shape n named_data k o Hshaped Hk) as (a & t & rest & -> & Hshape).
    destruct (getitem_batch_Ok a t n rest start stop Hshape) as (a' & Hget & _).
    exists (PyArr a'). simpl. by rewrite Hget. }
  eexists. split; [by apply dict_comprehension_Ok|]. split.
  - by rewrite dom_fmap_L.
  - intros k a Hk.
    destruct (well_shaped_shape n named_data k _ Hshaped Hk) as (a0 & t & rest & [= <-] & Hshape).
    destruct (getitem_batch_Ok a t n rest start stop Hshape) as (a' & Hget & Hshape').
    exists a'. split_and!.
    + rewrite lookup_fmap, Hk. simpl. by rewrite Hget.
    + by rewrite Hshape', Hshape.
    + intros r c f Hc.
      destruct (decide (r < t ∧ f < size_of rest)) as [[Hr Hf]|Hout].
      * by apply (item_getitem_batch a a' t n rest start stop r c f); eauto.
      * pose proof (slice_len_le n start stop Hs He).
        unfold item. rewrite Hshape, Hshape'.
        rewrite !decide_False; [done|lia..].
Qed.

End batch_facts.

(** ** The iterators on a valid dataset *)

Section run_facts.
Context {elem R H : Type} `{!RandomSource R} `{!Handler elem H}.
Implicit Types (w : world elem R H) (named_data : gmap string (pyobj elem)).

Lemma Undivided_init_valid n named_data w0 :
  valid_dataset n named_data →
  ∃ data total_size w,
    Undivided_init named_data w0 = Ok (Undivided (dom named_data) data total_size, w) ∧
    heap w !! data = Some named_data.
Proof.
  intros Hvalid. unfold Undivided_init.
  rewrite (assert_correct_data_format_valid n) by done. simpl.
  eexists _, _, _. split; [done|]. apply lookup_insert_eq.
Qed.

Lemma Online_init_valid n named_data shuffle verbose seed w0 :
  valid_dataset n named_data →
  ∃ data rnd sample_size w,
    Online_init shuffle verbose seed named_data w0 =
      Ok (Online (dom named_data)
            (Seedable data (Z.of_nat n) shuffle verbose rnd) sample_size, w) ∧
    heap w !! data = Some named_data ∧ is_Some (rnds w !! rnd).
Proof.
  intros Hvalid. unfold Online_init. simpl.
  rewrite (assert_correct_data_format_valid n) by done. simpl.
  eexists _, _, _, _. split; [done|]. simpl.
  by rewrite !lookup_insert_eq.
Qed.

Lemma Minibatches_init_valid n named_data batch_size shuffle verbose seed w0 :
  valid_dataset n named_data →
  ∃ data rnd sample_size w,
    Minibatches_init batch_size shuffle verbose seed named_data w0 =
      Ok (Minibatches (dom named_data)
            (Seedable data (Z.of_nat n) shuffle verbose rnd) batch_size sample_size, w) ∧
    heap w !! data = Some named_data ∧ is_Some (rnds w !! rnd).
Proof.
  intros Hvalid. unfold Minibatches_init. simpl.
  rewrite (assert_correct_data_format_valid n) by done. simpl.
  eexists _, _, _, _. split; [done|]. simpl.
  by rewrite !lookup_insert_eq.
Qed.

Lemma shuffled_order (self : seedable) indices (rs : gmap nat R) :
  (shuffled self indices rs).1 ≡ₚ indices ∧
  (self_shuffle self = false → (shuffled self indices rs).1 = indices).
Proof.
  split; [apply shuffled_perm|]. intros Hoff. by rewrite shuffled_off.
Qed.

Lemma elem_of_arange n idx : idx ∈ arange n ↔ (0 ≤ idx < n)%Z.
Proof. unfold arange. rewrite elem_of_seqZ. lia. Qed.

(** A run of [Online] on a dataset that is in place *)
Lemma Online_consume n named_data (self : seedable) verbose w fuel :
  valid_dataset n named_data →
  heap w !! self_data self = Some named_data →
  self_nr_sequences self = Z.of_nat n →
  (self_shuffle self = true → is_Some (rnds w !! self_rnd self)) →
  n < fuel →
  ∃ batches w',
    consume fuel (GenOnline self verbose Start) w = Some (batches, None, w') ∧
    Forall2 (λ idx batch,
        batch_of named_data (idx, idx + 1)%Z = Ok batch ∧
        is_batch_slice named_data (Z.to_nat idx) 1 batch)
      (shuffled self (arange (Z.of_nat n)) (rnds w)).1 batches.*2 ∧
    sent w' = sent w ++ ((λ i, i + 1)%Z <$> arange (Z.of_nat n)) ∧
    (∀ l, l ∈ dom (heap w) → heap w' !! l = heap w !! l) ∧
    rnds w' = (shuffled self (arange (Z.of_nat n)) (rnds w)).2 ∧
    hstate w' = hstate w.
Proof.
  intros Hvalid Hdata Hnr Hrnd Hfuel.
  destruct (consume_loop_start self (GenOnline self verbose)
              (Ok (arange (self_nr_sequences self)))
              (λ idx, (idx, idx + 1)%Z) (λ i, i + 1)%Z verbose
              (λ _ _, eq_refl) named_data (arange (Z.of_nat n)) w fuel)
    as (batches & w' & Hrun & Hbatches & _ & Hsent & Hheap & Hrnds & Hh).
  - by rewrite Hnr.
  - done.
  - done.
  - apply Forall_forall. intros idx Hidx%elem_of_arange.
    destruct (batch_of_valid n named_data idx (idx + 1) Hvalid) as (batch & Hb & _);
      [lia..|]. eauto.
  - simpl. unfold arange. rewrite length_seqZ, Hnr. intros Hn. split; [lia|]. lia.
  - unfold arange. rewrite length_seqZ. lia.
  - exists batches, w'. split_and!; [done| |..|done|done|done].
    + apply Forall2_same_length_lookup in Hbatches as [Hlen Hlook].
      apply Forall2_same_length_lookup. split; [done|].
      intros i idx batch Hidx Hbatch.
      assert (0 ≤ idx < Z.of_nat n)%Z as Hrange.
      { apply elem_of_arange. rewrite <-(shuffled_perm self _ (rnds w)).
        by eapply list_elem_of_lookup_2. }
      destruct (batch_of_valid n named_data idx (idx + 1) Hvalid)
        as (batch' & Hb & Hslice); [lia..|].
      pose proof (Hlook i idx batch Hidx Hbatch) as Hcut. simpl in Hcut.
      split; [done|].
      rewrite Hcut in Hb. injection Hb as <-.
      destruct (slice_one n idx Hrange) as [Hstart Hlen1].
      by rewrite Hstart, Hlen1 in Hslice.
    + rewrite Hsent. unfold arange. rewrite length_seqZ. do 3 f_equal. lia.
Qed.



Lemma ceil_div_Ok n b : b ≠ 0%Z → ceil_div n b = Ok (ceil n b).
Proof. intros Hb. unfold ceil_div. by rewrite decide_False. Qed.



End run_facts.

(** ** The claims about [Undivided], [Online] and [Minibatches] *)

Section iterator_claims.
Context {elem R H : Type} `{!RandomSource R} `{!Handler elem H}.
Implicit Types (w : world elem R H) (named_data : gmap string (pyobj elem)).

Lemma valid_singleton n k (a : ndarray elem) :
  3 ≤ length (shape a) → shape a !! 1 = Some n → wf_array a →
  valid_dataset n {[ k := PyArr a ]}.
Proof.
  intros Hdim Hn Hwf. split_and!.
  - apply map_non_empty_singleton.
  - intros k' o [<- <-]%lookup_singleton_Some. eauto.
  - by intros k' a' [<- [= <-]]%lookup_singleton_Some.
Qed.

(** C2. On a valid dataset with [n] samples, a run of [Online] yields
    exactly [n] batches and ends without an exception; the indices it
    visits are a permutation of [0, ..., n - 1], and are [0, ..., n - 1]
    in this order when shuffling is off; the batch of index [idx] has the
    names of the dataset and maps each to the array with the same
    dimensions but one column, which is column [idx] of the original. *)
Theorem C2_online_batches n named_data shuffle verbose seed w0 call_verbose fuel :
  valid_dataset n named_data → n < fuel →
  ∃ it w order batches w',
    Online_init shuffle verbose seed named_data w0 = Ok (it, w) ∧
    consume fuel (call it call_verbose) w = Some (batches, None, w') ∧
    length batches = n ∧
    order ≡ₚ arange (Z.of_nat n) ∧
    (shuffle = false → order = arange (Z.of_nat n)) ∧
    Forall2 (λ idx batch, is_batch_slice named_data (Z.to_nat idx) 1 batch)
      order batches.*2.
Proof.
  intros Hvalid Hfuel.
  destruct (Online_init_valid n named_data shuffle verbose seed w0 Hvalid)
    as (data & rnd & ss & w & Hinit & Hdata & Hrnd).
  set (self := Seedable data (Z.of_nat n) shuffle verbose rnd) in *.
  destruct (Online_consume n named_data self call_verbose w fuel)
    as (batches & w' & Hrun & Hbatches & _); [done..|].
  destruct (shuffled_order self (arange (Z.of_nat n)) (rnds w)) as [Hperm Hoff].
  eexists _, w, _, batches, w'. split_and!; [exact Hinit|exact Hrun| |exact Hperm|exact Hoff|].
  - apply Forall2_length in Hbatches. rewrite length_fmap in Hbatches.
    rewrite <-Hbatches, Hperm. unfold arange. rewrite length_seqZ. lia.
  - eapply Forall2_impl; [exact Hbatches|]. by intros idx batch [_ ?].
Qed.

(** C3. On a valid dataset a run of [Undivided] yields exactly one batch
    and ends; the batch is the dict object the iterator holds, whose
    contents are the named data given to the constructor, and the run
    changes nothing in the store. *)
Theorem C3_undivided_one_batch n named_data w0 call_verbose fuel :
  valid_dataset n named_data → 1 < fuel →
  ∃ it w data,
    Undivided_init named_data w0 = Ok (it, w) ∧
    get_data it = Ok data ∧
    consume fuel (call it call_verbose) w = Some ([(data, named_data)], None, w).
Proof.
  intros Hvalid Hfuel.
  destruct (Undivided_init_valid n named_data w0 Hvalid) as (data & ts & w & Hinit & Hdata).
  exists (Undivided (dom named_data) data ts), w, data. split_and!; [done..|].
  destruct fuel as [|[|fuel]]; [lia..|]. simpl. by rewrite Hdata.
Qed.

(** Sending anything to a progress bar made for no sample divides by
    zero. *)
Lemma send_maximum_zero elapsed i progress :
  send elapsed (BarLoop 0 i) progress = Raise ZeroDivisionError.
Proof. done. Qed.

Lemma ceil_zero b : ceil 0 b = 0%Z.
Proof. unfold ceil. by rewrite Z.opp_0, Zdiv_0_l. Qed.

(** C10. On a valid dataset whose arrays have no sample, a run of
    [Online], and a run of [Minibatches] with any batch size but zero,
    yields no batch and ends without an exception, whatever the verbosity;
    nothing is sent to the progress coroutine. *)
Theorem C10_no_samples named_data shuffle verbose seed b w0 call_verbose fuel :
  valid_dataset 0 named_data → b ≠ 0%Z → 0 < fuel →
  (∃ it w w',
     Online_init shuffle verbose seed named_data w0 = Ok (it, w) ∧
     consume fuel (call it call_verbose) w = Some ([], None, w') ∧
     sent w' = sent w) ∧
  (∃ it w w',
     Minibatches_init b shuffle verbose seed named_data w0 = Ok (it, w) ∧
     consume fuel (call it call_verbose) w = Some ([], None, w') ∧
     sent w' = sent w).
Proof.
  intros Hvalid Hb Hfuel. split.
  - destruct (Online_init_valid 0 named_data shuffle verbose seed w0 Hvalid)
      as (data & rnd & ss & w & Hinit & Hdata & Hrnd).
    set (self := Seedable data 0 shuffle verbose rnd) in *.
    destruct (Online_consume 0 named_data self call_verbose w fuel)
      as (batches & w' & Hrun & Hbatches & Hsent & _); [done..|].
    eexists _, w, w'. split; [exact Hinit|].
    assert (batches = []) as ->.
    { apply Forall2_length in Hbatches. rewrite length_fmap in Hbatches.
      rewrite (shuffled_perm self) in Hbatches. by destruct batches. }
    split; [exact Hrun|]. by rewrite Hsent, app_nil_r.
  - destruct (Minibatches_init_valid 0 named_data b shuffle verbose seed w0 Hvalid)
      as (data & rnd & ss & w & Hinit & Hdata & Hrnd).
    set (self := Seedable data 0 shuffle verbose rnd) in *.
    destruct (consume_loop_start self (GenMinibatches self b call_verbose)
                (arange <$> ceil_div (self_nr_sequences self) b)
                (λ idx, (idx * b, (idx + 1) * b)%Z) (λ i, (i + 1) * b)%Z call_verbose
                (λ _ _, eq_refl) named_data [] w fuel)
      as (batches & w' & Hrun & Hbatches & _ & Hsent & _); [|done|auto|done|done|done|].
    { simpl. by rewrite ceil_div_Ok, ceil_zero. }
    eexists _, w, w'. split; [exact Hinit|].
    assert (batches = []) as ->.
    { apply Forall2_length in Hbatches. rewrite length_fmap in Hbatches.
      rewrite (shuffled_perm self) in Hbatches. by destruct batches. }
    split; [exact Hrun|]. by rewrite Hsent, app_nil_r.
Qed.





End iterator_claims.

(** ** The noise decorator *)

Section noise_facts.
Context {elem R H : Type} `{!RandomSource R} `{!Handler elem H}.
Implicit Types (w : world elem R H) (d : gmap string (pyobj elem)).
Implicit Types (std_dict mean_dict : gmap string elem).

(** One turn of the inner loop: the entry of [key] is replaced by an
    array of the same shape, and nothing else changes in the dict. *)
Lemma add_noise_spec mean_dict data key std w d a :
  heap w !! data = Some d → d !! key = Some (PyArr a) →
  ∃ a' w',
    add_noise mean_dict data key std w = Ok w' ∧
    heap w' = <[data := <[key := PyArr a']> d]> (heap w) ∧
    shape a' = shape a ∧
    rnds w' = rnds w ∧ sent w' = sent w.
Proof.
  intros Hd Hkey. unfold add_noise. rewrite Hd. simpl. rewrite Hkey. simpl.
  destruct (fill_gaussian _ std (zeros (shape a)) (hstate w)) as [noise h] eqn:Hfill.
  eexists _, _. split; [done|]. split_and!; [done| |done..].
  rewrite add_tt_shape.
  pose proof (fill_gaussian_shape (default float_zero (mean_dict !! key)) std
                (zeros (shape a)) (hstate w)) as Hshape.
  rewrite Hfill in Hshape. simpl in Hshape. by rewrite Hshape, zeros_shape.
Qed.

(** The whole inner loop on a dict that has an array under every
    configured name *)
Lemma add_noise_all_spec mean_dict data (items : list (string * elem)) : ∀ w d,
  heap w !! data = Some d →
  (∀ key, key ∈ items.*1 → ∃ a, d !! key = Some (PyArr a)) →
  ∃ w' d',
    add_noise_all mean_dict data items w = (None, w') ∧
    heap w' = <[data := d']> (heap w) ∧
    dom d' = dom d ∧
    (∀ key a, d !! key = Some (PyArr a) →
       ∃ a', d' !! key = Some (PyArr a') ∧ shape a' = shape a) ∧
    (∀ key, key ∉ items.*1 → d' !! key = d !! key).
Proof.
  induction items as [|[key std] items IH]; intros w d Hd Hkeys.
  - exists w, d. simpl. split_and!; [done| |done|eauto|done].
    by rewrite insert_id.
  - destruct (Hkeys key) as [a Ha]; [left|].
    destruct (add_noise_spec mean_dict data key std w d a Hd Ha)
      as (a' & w1 & Hstep & Hheap1 & Hshape & _).
    destruct (IH w1 (<[key := PyArr a']> d)) as (w' & d' & Hrun & Hheap & Hdom & Hshapes & Hrest).
    { rewrite Hheap1. apply lookup_insert_eq. }
    { intros key' Hin. destruct (decide (key = key')) as [<-|Hne].
      - exists a'. apply lookup_insert_eq.
      - rewrite lookup_insert_ne by done. apply Hkeys. by right. }
    exists w', d'. simpl. rewrite Hstep. split_and!.
    + done.
    + by rewrite Hheap, Hheap1, insert_insert_eq.
    + rewrite Hdom. apply dom_insert_lookup_L. eauto.
    + intros key' b Hb. destruct (decide (key = key')) as [<-|Hne].
      * rewrite Ha in Hb. injection Hb as <-.
        destruct (Hshapes key a') as (a'' & Ha'' & Hshape''); [apply lookup_insert_eq|].
        exists a''. split; [done|congruence].
      * apply Hshapes. by rewrite lookup_insert_ne.
    + intros key' Hout. apply not_elem_of_cons in Hout as [Hne Hout].
      rewrite Hrest by done. by apply lookup_insert_ne.
Qed.

(** C9. When the wrapped generator yields a batch that has an array
    under every configured name, the decorator yields the same dict
    object, in which every configured name now maps to an array of the
    shape of the original and every other name maps to what it mapped to
    before. *)
Theorem C9_noise_batch std_dict mean_dict (inner inner' : generator) data d w w1 :
  gen_next inner w = (Yield data inner', w1) →
  heap w1 !! data = Some d →
  (∀ key, key ∈ dom std_dict → ∃ a, d !! key = Some (PyArr a)) →
  ∃ d' w2,
    gen_next (GenNoise std_dict mean_dict inner) w =
      (Yield data (GenNoise std_dict mean_dict inner'), w2) ∧
    heap w2 !! data = Some d' ∧
    dom d' = dom d ∧
    (∀ key a, key ∈ dom std_dict → d !! key = Some (PyArr a) →
       ∃ a', d' !! key = Some (PyArr a') ∧ shape a' = shape a) ∧
    (∀ key, key ∉ dom std_dict → d' !! key = d !! key).
Proof.
  intros Hinner Hd Hkeys.
  assert (∀ key, key ∈ (map_to_list std_dict).*1 ↔ key ∈ dom std_dict) as Hdom.
  { intros key. rewrite elem_of_dom, list_elem_of_fmap. split.
    - intros ([k v] & -> & Hin%elem_of_map_to_list). eauto.
    - intros [v Hv]. exists (key, v). split; [done|]. by apply elem_of_map_to_list. }
  destruct (add_noise_all_spec mean_dict data (map_to_list std_dict) w1 d Hd)
    as (w2 & d' & Hrun & Hheap & Hdom' & Hshapes & Hrest).
  { intros key Hin. apply Hkeys. by apply Hdom. }
  exists d', w2. simpl. rewrite Hinner, Hrun. split_and!.
  - done.
  - rewrite Hheap. apply lookup_insert_eq.
  - done.
  - intros key a _ Ha. by apply Hshapes.
  - intros key Hout. apply Hrest. by rewrite Hdom.
Qed.

(** The check of the configured names against an iterator that owns a
    dataset *)
Lemma check_keys_dataset (keys : list string) it data d w :
  get_data it = Ok data → heap w !! data = Some d →
  check_keys keys it w =
    if decide (Forall (λ key, key ∈ dom d) keys) then Ok () else Raise AssertionError.
Proof.
  intros Hit Hd. induction keys as [|key keys IH].
  - destruct (decide (Forall (λ key, key ∈ dom d) [])) as [?|Hn]; [done|].
    exfalso. apply Hn. constructor.
  - cbn [check_keys]. rewrite Hit. simpl. rewrite Hd. simpl.
    destruct (decide (key ∈ dom d)) as [Hin|Hout].
    + rewrite bool_decide_eq_true_2 by done. simpl. rewrite IH.
      destruct (decide (Forall _ keys)) as [Hall|Hnot].
      * by rewrite decide_True by by constructor.
      * rewrite decide_False; [done|]. by intros [_ ?]%Forall_cons.
    + rewrite bool_decide_eq_false_2 by done. simpl.
      rewrite decide_False; [done|]. by intros [? _]%Forall_cons.
Qed.

(** The check against a noise decorator: it has no [data]. *)
Lemma check_keys_decorator (keys : list string) names iter std_dict mean_dict w :
  keys ≠ [] →
  check_keys keys (AddGaussianNoise names iter std_dict mean_dict) w = Raise AttributeError.
Proof. by destruct keys. Qed.

(** C5, as the code has it. With the configured names present in the
    wrapped iterator, constructing the decorator succeeds when no mean
    mapping is given, and then keeps the empty mapping, so that every
    mean is read as [0.0]; it succeeds when the mean mapping has exactly
    the names of the standard-deviation mapping; and with a mean mapping
    of any other set of names it fails with an [AssertionError], be it
    for a mean without standard deviation or for a standard deviation
    without mean. *)
Theorem C5_noise_means_and_stds (iter : iterator) std_dict mean_dict w :
  (check_keys (map_to_list std_dict).*1 iter w = Ok () →
   AddGaussianNoise_init iter std_dict None w =
     Ok (AddGaussianNoise (data_names iter) iter std_dict ∅) ∧
   ∀ key, default float_zero ((∅ : gmap string elem) !! key) = float_zero) ∧
  (check_keys (map_to_list std_dict).*1 iter w = Ok () →
   dom mean_dict = dom std_dict →
   AddGaussianNoise_init iter std_dict (Some mean_dict) w =
     Ok (AddGaussianNoise (data_names iter) iter std_dict mean_dict)) ∧
  (dom mean_dict ≠ dom std_dict →
   AddGaussianNoise_init iter std_dict (Some mean_dict) w = Raise AssertionError).
Proof.
  unfold AddGaussianNoise_init. split_and!.
  - intros ->. done.
  - intros -> Hdom. simpl. by rewrite bool_decide_eq_true_2.
  - intros Hdom. simpl. by rewrite bool_decide_eq_false_2.
Qed.

(** C6, where the code departs from it. Constructing a noise decorator
    around another noise decorator with at least one configured name
    raises [AttributeError], whatever the names are: the check reads
    [iter.data], which a decorator does not have. *)
Theorem C6_noise_over_noise_fails names (iter : iterator) std_dict mean_dict
    std_dict' (mean_dict' : option (gmap string elem)) w :
  std_dict' ≠ ∅ →
  match mean_dict' with
  | Some mean_dict' => dom mean_dict' = dom std_dict'
  | None => True
  end →
  AddGaussianNoise_init (AddGaussianNoise names iter std_dict mean_dict)
    std_dict' mean_dict' w = Raise AttributeError.
Proof.
  intros Hne Hmean. unfold AddGaussianNoise_init.
  assert ((map_to_list std_dict').*1 ≠ []) as Hkeys.
  { intros Hnil%fmap_nil_inv. by apply map_to_list_empty_iff in Hnil. }
  rewrite check_keys_decorator by done.
  destruct mean_dict' as [mean_dict'|]; [|done].
  simpl. by rewrite bool_decide_eq_true_2.
Qed.

(** Around an iterator that owns a dataset the check is the one of the
    specification: the configured names must be among the names of the
    dataset, or the constructor fails with an [AssertionError]. *)
Lemma AddGaussianNoise_init_dataset (it : iterator) data d std_dict w :
  get_data it = Ok data → heap w !! data = Some d →
  AddGaussianNoise_init it std_dict None w =
    if decide (dom std_dict ⊆ dom d)
    then Ok (AddGaussianNoise (data_names it) it std_dict ∅)
    else Raise AssertionError.
Proof.
  intros Hit Hd. unfold AddGaussianNoise_init. simpl.
  rewrite (check_keys_dataset _ it data d w Hit Hd).
  assert (Forall (λ key, key ∈ dom d) (map_to_list std_dict).*1 ↔ dom std_dict ⊆ dom d)
    as Hiff.
  { rewrite Forall_forall. split.
    - intros Hall key [v Hv]%elem_of_dom. apply Hall.
      apply list_elem_of_fmap. exists (key, v). split; [done|]. by apply elem_of_map_to_list.
    - intros Hsub key ([k v] & -> & Hin%elem_of_map_to_list)%list_elem_of_fmap.
      apply Hsub, elem_of_dom. eauto. }
  destruct (decide (dom std_dict ⊆ dom d)) as [Hsub|Hnot].
  - by rewrite decide_True by by apply Hiff.
  - by rewrite decide_False by by rewrite Hiff.
Qed.

End noise_facts.

(** ** The properties on concrete inputs *)

Section examples.
#[local] Existing Instance reversing_source.
#[local] Existing Instance constant_handler.

Lemma x4_valid : valid_dataset 4 data_x4.
Proof. apply valid_singleton; [simpl; lia|reflexivity|reflexivity]. Qed.

Lemma x0_valid : valid_dataset 0 data_x0.
Proof. apply valid_singleton; [simpl; lia|reflexivity|reflexivity]. Qed.

Example Undivided_init_xy :
  Undivided_init data_xy empty_world = Ok (undivided_xy, world_xy).
Proof. vm_compute. reflexivity. Qed.

(** The validator on the two examples of the specification: an array of
    two dimensions, and batch-dimension sizes 3 and 4 *)
Example validator_two_dimensions :
  _assert_correct_data_format
    ({[ "x"%string := PyArr (NDArray [2; 2] [1; 2; 3; 4]%Z) ]})
  = Raise (IteratorValidationError TooFewDimensions).
Proof. vm_compute. reflexivity. Qed.

Example validator_sizes_3_and_4 :
  _assert_correct_data_format
    ({[ "x"%string := PyArr (NDArray [1; 3; 1] [1; 2; 3]%Z);
        "y"%string := PyArr (NDArray [1; 4; 1] [1; 2; 3; 4]%Z) ]})
  = Raise (IteratorValidationError
             (UnequalSequences {[ "x"%string := 3%Z; "y"%string := 4%Z ]})).
Proof. vm_compute. reflexivity. Qed.

(** The example of the specification: four samples in minibatches of
    three, without shuffling, come in batches of three and one. *)
Example minibatches_3_of_4 :
  ∃ it w batches w',
    Minibatches_init 3 false None None data_xy empty_world = Ok (it, w) ∧
    consume 3 (call it false) w = Some (batches, None, w') ∧
    batch_dim "x" <$> batches.*2 = [Some 3; Some 1] ∧
    batch_dim "y" <$> batches.*2 = [Some 3; Some 1].
Proof.
  eexists _, _, _, _. split; [vm_compute; reflexivity|].
  split; [vm_compute; reflexivity|].
  split; [vm_compute; reflexivity|]. vm_compute. reflexivity.
Qed.

(** A batch size of zero makes [Minibatches] raise at its first [next];
    a negative one makes it yield nothing. *)
Example minibatches_batch_size_zero :
  ∃ it w w',
    Minibatches_init 0 false None None data_x4 empty_world = Ok (it, w) ∧
    consume 3 (call it false) w = Some ([], Some ZeroDivisionError, w').
Proof. eexists _, _, _. split; [vm_compute; reflexivity|]. vm_compute. reflexivity. Qed.

Example minibatches_batch_size_negative :
  ∃ it w w',
    Minibatches_init (-3) false None None data_x4 empty_world = Ok (it, w) ∧
    consume 3 (call it false) w = Some ([], None, w').
Proof. eexists _, _, _. split; [vm_compute; reflexivity|]. vm_compute. reflexivity. Qed.

(** Without samples, too, a batch size of zero raises: the quotient
    [0 / 0] is taken before the index range exists. *)
Example minibatches_no_samples_batch_size_zero :
  ∃ it w w',
    Minibatches_init 0 false None None data_x0 empty_world = Ok (it, w) ∧
    consume 3 (call it false) w = Some ([], Some ZeroDivisionError, w').
Proof. eexists _, _, _. split; [vm_compute; reflexivity|]. vm_compute. reflexivity. Qed.


(** C5 as stated fails: a mean for [x] only, with standard deviations for
    [x] and [y], both names of the wrapped iterator, is refused. *)
Lemma C5_counterexample :
  dom ({[ "x"%string := 0%Z ]} : gmap string Z)
    ⊆ dom ({[ "x"%string := 1%Z; "y"%string := 1%Z ]} : gmap string Z) ∧
  dom ({[ "x"%string := 1%Z; "y"%string := 1%Z ]} : gmap string Z)
    ⊆ data_names undivided_xy ∧
  AddGaussianNoise_init undivided_xy {[ "x"%string := 1%Z; "y"%string := 1%Z ]}
    (Some {[ "x"%string := 0%Z ]}) world_xy = Raise AssertionError.
Proof.
  split; [apply (bool_decide_unpack _); by vm_compute|].
  split; [apply (bool_decide_unpack _); by vm_compute|].
  vm_compute. reflexivity.
Qed.

(** C7, where the code departs from it: a run of the noise decorator
    around [Undivided] writes the noisy arrays into the dict that
    [Undivided] holds as its dataset, so the dataset is not what it was,
    and a second run, from the same state of the handler and of the random
    sources, yields another batch. *)
Theorem C7_noise_overwrites_undivided_dataset :
  ∃ it noisy w data batches w' batches' w'',
    Undivided_init data_x4 empty_world = Ok (it, w) ∧
    get_data it = Ok data ∧
    AddGaussianNoise_init it {[ "x"%string := 5%Z ]} None w = Ok noisy ∧
    heap w !! data = Some data_x4 ∧
    consume 2 (call noisy false) w = Some (batches, None, w') ∧
    batches.*2 = [ {[ "x"%string := PyArr x4_noisy ]} ] ∧
    heap w' !! data = Some {[ "x"%string := PyArr x4_noisy ]} ∧
    heap w' !! data ≠ heap w !! data ∧
    hstate w' = hstate w ∧ rnds w' = rnds w ∧
    consume 2 (call noisy false) w' = Some (batches', None, w'') ∧
    batches'.*2 = [ {[ "x"%string := PyArr x4_noisy_twice ]} ].
Proof.
  eexists _, _, _, _, _, _, _, _.
  split; [vm_compute; reflexivity|].
  split; [vm_compute; reflexivity|].
  split; [vm_compute; reflexivity|].
  split; [vm_compute; reflexivity|].
  split; [vm_compute; reflexivity|].
  split; [vm_compute; reflexivity|].
  split; [vm_compute; reflexivity|].
  split; [vm_compute; discriminate|].
  split; [vm_compute; reflexivity|].
  split; [vm_compute; reflexivity|].
  split; [vm_compute; reflexivity|]. vm_compute. reflexivity.
Qed.

(** The same decorator around [Online] leaves the dataset as it was:
    [Online] makes a new dict for every batch. *)
Example noise_over_online_keeps_dataset :
  ∃ it noisy w data batches w',
    Online_init false None None data_x4 empty_world = Ok (it, w) ∧
    get_data it = Ok data ∧
    AddGaussianNoise_init it {[ "x"%string := 5%Z ]} None w = Ok noisy ∧
    consume 5 (call noisy false) w = Some (batches, None, w') ∧
    length batches = 4 ∧
    heap w' !! data = Some data_x4.
Proof.
  eexists _, _, _, _, _, _.
  split; [vm_compute; reflexivity|].
  split; [vm_compute; reflexivity|].
  split; [vm_compute; reflexivity|].
  split; [vm_compute; reflexivity|].
  split; [vm_compute; reflexivity|]. vm_compute. reflexivity.
Qed.

(** *** The hypotheses of the claims can be met *)


Lemma C2_online_batches_witness :
  valid_dataset 4 data_x4 ∧ 4 < 5 ∧
  ∃ it w batches w',
    Online_init true None None data_x4 empty_world = Ok (it, w) ∧
    consume 5 (call it false) w = Some (batches, None, w') ∧
    length batches = 4.
Proof.
  split; [exact x4_valid|]. split; [lia|].
  destruct (C2_online_batches 4 data_x4 true None None empty_world false 5 x4_valid)
    as (it & w & order & batches & w' & Hinit & Hrun & Hlen & _); [lia|].
  by exists it, w, batches, w'.
Defined.

Lemma C3_undivided_one_batch_witness :
  valid_dataset 4 data_x4 ∧ 1 < 2 ∧
  ∃ it w data,
    Undivided_init data_x4 empty_world = Ok (it, w) ∧
    get_data it = Ok data ∧
    consume 2 (call it false) w = Some ([(data, data_x4)], None, w).
Proof.
  split; [exact x4_valid|]. split; [lia|].
  apply (C3_undivided_one_batch 4 data_x4 empty_world false 2 x4_valid). lia.
Defined.

Lemma C4_assert_correct_data_format_witness :
  data_x4 ≠ ∅ ∧ _assert_correct_data_format data_x4 = Ok 4%Z.
Proof.
  split; [apply map_non_empty_singleton|].
  apply (proj1 (C4_assert_correct_data_format data_x4 (map_non_empty_singleton _ _)) 4).
  apply x4_valid.
Defined.

Lemma C5_noise_means_and_stds_witness :
  AddGaussianNoise_init undivided_xy {[ "x"%string := 1%Z; "y"%string := 1%Z ]}
    None world_xy
  = Ok (AddGaussianNoise (data_names undivided_xy) undivided_xy
          {[ "x"%string := 1%Z; "y"%string := 1%Z ]} ∅) ∧
  AddGaussianNoise_init undivided_xy {[ "x"%string := 1%Z; "y"%string := 1%Z ]}
    (Some {[ "x"%string := 0%Z; "y"%string := 2%Z ]}) world_xy
  = Ok (AddGaussianNoise (data_names undivided_xy) undivided_xy
          {[ "x"%string := 1%Z; "y"%string := 1%Z ]}
          {[ "x"%string := 0%Z; "y"%string := 2%Z ]}) ∧
  AddGaussianNoise_init undivided_xy {[ "x"%string := 1%Z; "y"%string := 1%Z ]}
    (Some {[ "y"%string := 2%Z ]}) world_xy
  = Raise AssertionError.
Proof.
  destruct (C5_noise_means_and_stds undivided_xy
              {[ "x"%string := 1%Z; "y"%string := 1%Z ]}
              {[ "x"%string := 0%Z; "y"%string := 2%Z ]} world_xy) as (Hnone & Hsame & _).
  destruct (C5_noise_means_and_stds undivided_xy
              {[ "x"%string := 1%Z; "y"%string := 1%Z ]}
              {[ "y"%string := 2%Z ]} world_xy) as (_ & _ & Hother).
  split; [apply Hnone; vm_compute; reflexivity|].
  split; [apply Hsame; [vm_compute; reflexivity|]|apply Hother];
    apply (bool_decide_unpack _); by vm_compute.
Defined.

Lemma C6_noise_over_noise_fails_witness :
  ({[ "x"%string := 1%Z ]} : gmap string Z) ≠ ∅ ∧
  AddGaussianNoise_init
    (AddGaussianNoise (data_names undivided_xy) undivided_xy {[ "x"%string := 5%Z ]} ∅)
    {[ "x"%string := 1%Z ]} None world_xy
  = Raise AttributeError.
Proof.
  split; [apply map_non_empty_singleton|].
  apply C6_noise_over_noise_fails; [apply map_non_empty_singleton|exact I].
Defined.


Lemma C9_noise_batch_witness :
  gen_next (GenUndivided 0 false) world_xy = (Yield 0 (GenUndivided 0 true), world_xy) ∧
  heap world_xy !! 0 = Some data_xy ∧
  (∀ key, key ∈ dom ({[ "x"%string := 5%Z ]} : gmap string Z) →
          ∃ a, data_xy !! key = Some (PyArr a)) ∧
  ∃ d' w2,
    gen_next (GenNoise {[ "x"%string := 5%Z ]} ∅ (GenUndivided 0 false)) world_xy =
      (Yield 0 (GenNoise {[ "x"%string := 5%Z ]} ∅ (GenUndivided 0 true)), w2) ∧
    heap w2 !! 0 = Some d' ∧
    dom d' = dom data_xy ∧
    d' !! "y"%string = data_xy !! "y"%string.
Proof.
  assert (∀ key, key ∈ dom ({[ "x"%string := 5%Z ]} : gmap string Z) →
                 ∃ a, data_xy !! key = Some (PyArr a)) as Hkeys.
  { intros key Hin. rewrite dom_singleton_L in Hin.
    apply elem_of_singleton in Hin as ->. by exists x4. }
  split; [reflexivity|]. split; [reflexivity|]. split; [exact Hkeys|].
  destruct (C9_noise_batch {[ "x"%string := 5%Z ]} ∅ (GenUndivided 0 false)
              (GenUndivided 0 true) 0 data_xy world_xy world_xy eq_refl eq_refl Hkeys)
    as (d' & w2 & Hnext & Hheap & Hdom & _ & Hrest).
  exists d', w2. split_and!; [done..|].
  apply Hrest. rewrite dom_singleton_L, elem_of_singleton. discriminate.
Defined.

Lemma C10_no_samples_witness :
  valid_dataset 0 data_x0 ∧ 10%Z ≠ 0%Z ∧ 0 < 1 ∧
  (∃ it w w',
     Online_init true (Some true) None data_x0 empty_world = Ok (it, w) ∧
     consume 1 (call it true) w = Some ([], None, w') ∧ sent w' = sent w) ∧
  (∃ it w w',
     Minibatches_init 10 true (Some true) None data_x0 empty_world = Ok (it, w) ∧
     consume 1 (call it true) w = Some ([], None, w') ∧ sent w' = sent w).
Proof.
  split; [exact x0_valid|]. split; [lia|]. split; [lia|].
  apply (C10_no_samples data_x0 true (Some true) None 10 empty_world true 1 x0_valid); lia.
Defined.

End examples.

(** * Further properties *)

(** ** Whole runs of [Online] and [Minibatches], with all their effects *)

Section full_run_facts.
Context {elem R H : Type} `{!RandomSource R} `{!Handler elem H}.
Implicit Types (w : world elem R H) (d : gmap string (pyobj elem)).

Section loop.
Context (self : seedable) (mk : frame → generator (elem := elem))
  (indices0 : result (list Z)) (chunk : Z → Z * Z) (progress : Z → Z)
  (verbose : bool).
Hypothesis gen_next_mk : ∀ fr w,
  gen_next (mk fr) w = loop_next self mk indices0 chunk progress verbose fr w.

(** The loop from its head: besides the batches, what it leaves in the
    store.  The dict objects it yields are new and different from each
    other, the heap afterwards is the heap before with these objects
    added, and what it prints is what the coroutine answers. *)
Lemma consume_loop_yield_full d indices : ∀ p_bar i w fuel,
  heap w !! self_data self = Some d →
  Forall (λ idx, ∃ batch, batch_of d (chunk idx) = Ok batch) indices →
  p_bar_ready progress p_bar i (length indices) →
  length indices ≤ fuel →
  ∃ batches w',
    after_step (consume fuel) (loop_yield self mk chunk p_bar i indices w)
      = Some (batches, None, w') ∧
    Forall2 (λ idx batch, batch_of d (chunk idx) = Ok batch) indices batches.*2 ∧
    NoDup batches.*1 ∧
    Forall (λ l, l ∉ dom (heap w)) batches.*1 ∧
    heap w' = list_to_map batches ∪ heap w ∧
    stdout w' = stdout w ++
      sends (elapsed_str w) p_bar (progress <$> seqZ i (Z.of_nat (length indices))) ∧
    sent w' = sent w ++ (progress <$> seqZ i (Z.of_nat (length indices))) ∧
    rnds w' = rnds w ∧ hstate w' = hstate w ∧ elapsed_str w' = elapsed_str w.
Proof.
  induction indices as [|idx rest IH]; intros p_bar i w fuel Hd Hslices Hready Hfuel.
  - exists [], w. simpl. split_and!; try done; try constructor.
    + by rewrite (left_id_L ∅ (∪)).
    + by rewrite app_nil_r.
    + by rewrite app_nil_r.
  - apply Forall_cons in Hslices as [[batch Hbatch] Hslices].
    destruct fuel as [|fuel]; [simpl in Hfuel; lia|].
    simpl in Hfuel. apply Nat.succ_le_mono in Hfuel.
    unfold loop_yield. rewrite Hd. fold (batch_of d (chunk idx)). rewrite Hbatch.
    pose proof (alloc_fresh batch w) as Hfresh.
    pose proof (alloc_lookup batch w) as Hl.
    assert (heap (alloc batch w).2 = <[(alloc batch w).1 := batch]> (heap w)) as Hheap1
      by done.
    assert (sent (alloc batch w).2 = sent w ∧ stdout (alloc batch w).2 = stdout w ∧
            rnds (alloc batch w).2 = rnds w ∧ hstate (alloc batch w).2 = hstate w ∧
            elapsed_str (alloc batch w).2 = elapsed_str w)
      as (Hsent1 & Hout1 & Hrnds1 & Hh1 & He1) by done.
    destruct (alloc batch w) as [l w1]. simpl in Hfresh, Hl, Hheap1, Hsent1, Hout1, Hrnds1, Hh1, He1.
    unfold after_step. simpl consume. rewrite gen_next_mk. unfold loop_next.
    destruct (send_ready progress (elapsed_str (log_sent (progress i) w1)) p_bar i
                (length rest) Hready) as (out & p_bar' & Hsend & Hready').
    rewrite Hsend.
    set (w2 := print out (log_sent (progress i) w1)).
    assert (heap w2 !! self_data self = Some d) as Hd2.
    { simpl. rewrite Hheap1, lookup_insert_ne; [done|].
      intros ->. apply Hfresh, elem_of_dom. eauto. }
    destruct (IH p_bar' (i + 1)%Z w2 fuel Hd2 Hslices Hready' Hfuel)
      as (batches & w' & Hrun & Hbatches & Hnodup & Hnew & Hheap & Hout & Hsent & Hrnds & Hh & He).
    fold (loop_yield self mk chunk p_bar' (i + 1) rest w2).
    rewrite Hrun. simpl.
    assert (l ∉ batches.*1) as Hl_new.
    { intros Hin. rewrite Forall_forall in Hnew. apply (Hnew l Hin).
      simpl. rewrite Hheap1, dom_insert_L. apply elem_of_union_l, elem_of_singleton. done. }
    assert (seqZ i (Z.of_nat (S (length rest))) = i :: seqZ (i + 1) (Z.of_nat (length rest)))
      as Hseq.
    { rewrite Nat2Z.inj_succ, (seqZ_cons i) by lia. by rewrite Z.pred_succ, Z.add_1_r. }
    eexists _, w'. split_and!; [done|..].
    + simpl. rewrite Hl. simpl. by constructor.
    + simpl. by constructor.
    + simpl. constructor; [done|].
      eapply Forall_impl; [exact Hnew|]. simpl. intros l' Hl' Hin. apply Hl'.
      rewrite Hheap1, dom_insert_L. by apply elem_of_union_r.
    + rewrite Hheap. simpl. rewrite Hl. simpl. rewrite Hheap1.
      rewrite <-insert_union_l. symmetry. apply insert_union_r.
      by apply not_elem_of_list_to_map_1.
    + rewrite Hout. simpl stdout. rewrite Hout1, <-app_assoc. f_equal.
      change (length (idx :: rest)) with (S (length rest)). rewrite Hseq.
      change (elapsed_str (log_sent (progress i) w1)) with (elapsed_str w1) in Hsend.
      change (elapsed_str w2) with (elapsed_str w1).
      rewrite He1 in Hsend |- *. cbn [sends fmap list_fmap]. by rewrite Hsend.
    + rewrite Hsent. simpl sent. rewrite Hsent1, <-app_assoc. f_equal.
      change (length (idx :: rest)) with (S (length rest)). by rewrite Hseq.
    + by rewrite Hrnds.
    + by rewrite Hh.
    + by rewrite He.
Qed.

(** A whole run, from the creation of the generator to its end *)
Lemma consume_loop_start_full d indices w fuel :
  indices0 = Ok indices →
  heap w !! self_data self = Some d →
  (self_shuffle self = true → is_Some (rnds w !! self_rnd self)) →
  Forall (λ idx, ∃ batch, batch_of d (chunk idx) = Ok batch) indices →
  p_bar_ready progress (BarLoop (self_nr_sequences self) 0) 0 (length indices) →
  length indices < fuel →
  let start := if effective_verbose self verbose
               then progress_bar (self_nr_sequences self) else silence in
  ∃ batches w',
    consume fuel (mk Start) w = Some (batches, None, w') ∧
    Forall2 (λ idx batch, batch_of d (chunk idx) = Ok batch)
      (shuffled self indices (rnds w)).1 batches.*2 ∧
    NoDup batches.*1 ∧
    Forall (λ l, l ∉ dom (heap w)) batches.*1 ∧
    heap w' = list_to_map batches ∪ heap w ∧
    stdout w' = stdout w ++ start.1 ::
      sends (elapsed_str w) start.2 (progress <$> seqZ 0 (Z.of_nat (length indices))) ∧
    sent w' = sent w ++ (progress <$> seqZ 0 (Z.of_nat (length indices))) ∧
    rnds w' = (shuffled self indices (rnds w)).2 ∧
    hstate w' = hstate w ∧ elapsed_str w' = elapsed_str w.
Proof.
  intros Hind Hd Hrnd Hslices Hready Hfuel start.
  destruct fuel as [|fuel]; [lia|]. apply Nat.succ_le_mono in Hfuel.
  simpl consume. rewrite gen_next_mk. unfold loop_next, start_p_bar.
  fold (effective_verbose self verbose). fold start.
  assert (p_bar_ready progress start.2 0 (length indices)) as Hready1.
  { subst start. by destruct (effective_verbose self verbose). }
  destruct start as [out p_bar]. simpl in Hready1 |- *.
  rewrite Hind.
  rewrite shuffle_indices_Ok by done.
  set (order := (shuffled self indices (rnds w)).1).
  set (w2 := set_rnds _ (print out w)).
  assert (order ≡ₚ indices) as Hperm by apply shuffled_perm.
  destruct (consume_loop_yield_full d order p_bar 0%Z w2 fuel)
    as (batches & w' & Hrun & Hbatches & Hnodup & Hnew & Hheap & Hout & Hsent & Hrnds & Hh & He).
  - done.
  - by rewrite Hperm.
  - by rewrite Hperm.
  - by rewrite Hperm.
  - exists batches, w'. rewrite Hperm in Hout, Hsent.
    split_and!; try done.
    rewrite Hout. simpl. by rewrite <-app_assoc.
Qed.

End loop.




End full_run_facts.

(** ** The constructors *)

Section constructor_facts.
Context {elem R H : Type} `{!RandomSource R} `{!Handler elem H}.
Implicit Types (w : world elem R H) (named_data : gmap string (pyobj elem)).

Lemma assert_correct_data_format_empty :
  _assert_correct_data_format (∅ : gmap string (pyobj elem)) = Raise ValueError.
Proof.
  unfold _assert_correct_data_format. rewrite map_to_list_empty. simpl.
  unfold values. by rewrite map_to_list_empty.
Qed.

(** X1. The validator raises [ValueError], which is not the validation
    error, exactly on the dataset with no name: [min] of no value.  So do
    the three constructors called without named data. *)
Theorem X1_no_named_data named_data batch_size shuffle verbose seed w :
  (_assert_correct_data_format named_data = Raise ValueError ↔ named_data = ∅) ∧
  Undivided_init (∅ : gmap string (pyobj elem)) w = Raise ValueError ∧
  Online_init shuffle verbose seed (∅ : gmap string (pyobj elem)) w = Raise ValueError ∧
  Minibatches_init batch_size shuffle verbose seed (∅ : gmap string (pyobj elem)) w
    = Raise ValueError.
Proof.
  split_and!.
  - split; [|intros ->; apply assert_correct_data_format_empty].
    intros Herr. destruct (decide (named_data = ∅)) as [|Hne]; [done|].
    destruct (assert_correct_data_format_cases named_data Hne)
      as [[[msg Hmsg] _]|(n & Hok & _)]; congruence.
  - unfold Undivided_init. by rewrite assert_correct_data_format_empty.
  - unfold Online_init. simpl. by rewrite assert_correct_data_format_empty.
  - unfold Minibatches_init. simpl. by rewrite assert_correct_data_format_empty.
Qed.

End constructor_facts.

(** ** Batch sizes that are not sizes, and large ones *)

Section batch_size_facts.
Context {elem R H : Type} `{!RandomSource R} `{!Handler elem H}.
Implicit Types (w : world elem R H) (named_data : gmap string (pyobj elem)).

(** X2. A batch size of zero is accepted by the constructor; the first
    [next] of every run then raises [ZeroDivisionError], after the first
    answer of the progress coroutine has been printed and before anything
    else happens: no batch, no dict object, nothing sent, no shuffle. *)
Theorem X2_batch_size_zero n named_data shuffle verbose seed w0 call_verbose fuel :
  valid_dataset n named_data → 0 < fuel →
  ∃ it w w' out,
    Minibatches_init 0 shuffle verbose seed named_data w0 = Ok (it, w) ∧
    consume fuel (call it call_verbose) w = Some ([], Some ZeroDivisionError, w') ∧
    stdout w' = stdout w ++ [out] ∧
    heap w' = heap w ∧ rnds w' = rnds w ∧ sent w' = sent w ∧ hstate w' = hstate w.
Proof.
  intros Hvalid Hfuel.
  destruct (Minibatches_init_valid n named_data 0 shuffle verbose seed w0 Hvalid)
    as (data & rnd & ss & w & Hinit & _).
  destruct fuel as [|fuel]; [lia|].
  destruct (match verbose with Some b => b | None => call_verbose end) eqn:Hverbose;
    eexists _, w, _, _; (split; [exact Hinit|]); simpl;
    unfold Minibatches_next, loop_next, start_p_bar; simpl; rewrite Hverbose; simpl;
    by split_and!.
Qed.

Lemma ceil_negative n b : (0 ≤ n)%Z → (b < 0)%Z → (ceil n b ≤ 0)%Z.
Proof.
  intros Hn Hb. unfold ceil.
  replace (- n / b)%Z with (n / - b)%Z by (rewrite <-(Z.div_opp_opp n (- b)) by lia; f_equal; lia).
  pose proof (Z.div_pos n (- b)). lia.
Qed.

(** X3. A negative batch size is accepted by the constructor too; every
    run then ends at once without a batch and without an exception: the
    index range [arange] of a number that is not positive is empty. *)
Theorem X3_batch_size_negative n named_data b shuffle verbose seed w0 call_verbose fuel :
  valid_dataset n named_data → (b < 0)%Z → 0 < fuel →
  ∃ it w w',
    Minibatches_init b shuffle verbose seed named_data w0 = Ok (it, w) ∧
    consume fuel (call it call_verbose) w = Some ([], None, w') ∧
    heap w' = heap w ∧ sent w' = sent w.
Proof.
  intros Hvalid Hb Hfuel.
  destruct (Minibatches_init_valid n named_data b shuffle verbose seed w0 Hvalid)
    as (data & rnd & ss & w & Hinit & Hdata & Hrnd).
  set (self := Seedable data (Z.of_nat n) shuffle verbose rnd) in *.
  destruct (consume_loop_start_full self (GenMinibatches self b call_verbose)
              (arange <$> ceil_div (self_nr_sequences self) b)
              (λ idx, (idx * b, (idx + 1) * b)%Z) (λ i, (i + 1) * b)%Z call_verbose
              (λ _ _, eq_refl) named_data [] w fuel)
    as (batches & w' & Hrun & Hbatches & _ & _ & Hheap & _ & Hsent & _);
    [|done|auto|done|done|done|].
  { simpl. rewrite ceil_div_Ok by lia. simpl. unfold arange.
    by rewrite seqZ_nil by (apply ceil_negative; lia). }
  assert (batches = []) as ->.
  { apply Forall2_length in Hbatches. rewrite length_fmap in Hbatches.
    rewrite (shuffled_perm self) in Hbatches. by destruct batches. }
  eexists _, w, w'. split; [exact Hinit|]. split; [exact Hrun|].
  split; [|by rewrite Hsent, app_nil_r].
  rewrite Hheap. simpl. by rewrite (left_id_L ∅ (∪)).
Qed.



End batch_size_facts.

(** ** What a run yields, and what it leaves *)

Section run_effect_facts.
Context {elem R H : Type} `{!RandomSource R} `{!Handler elem H}.
Implicit Types (w : world elem R H) (named_data : gmap string (pyobj elem)).









End run_effect_facts.

Section run_effect_claims.
Context {elem R H : Type} `{!RandomSource R} `{!Handler elem H}.
Implicit Types (w : world elem R H) (named_data : gmap string (pyobj elem)).





End run_effect_claims.

Section second_run_facts.
Context {elem R H : Type} `{!RandomSource R} `{!Handler elem H}.
Implicit Types (w : world elem R H) (named_data : gmap string (pyobj elem)).



End second_run_facts.

(** ** What the progress bar prints *)

Section progress_bar_facts.
Local Open Scope Z_scope.



















End progress_bar_facts.

(** ** What a run prints *)

Section printed_facts.
Context {elem R H : Type} `{!RandomSource R} `{!Handler elem H}.
Implicit Types (w : world elem R H) (named_data : gmap string (pyobj elem)).






End printed_facts.

(** ** The size attributes *)

Section size_facts.
Context {elem R H : Type} `{!RandomSource R} `{!Handler elem H}.
Implicit Types (w : world elem R H) (named_data : gmap string (pyobj elem)).
Local Open Scope Z_scope.











End size_facts.

(** ** The noise decorator around [Online] and [Minibatches] *)

Section noise_run_facts.
Context {elem R H : Type} `{!RandomSource R} `{!Handler elem H}.
Implicit Types (w : world elem R H) (d : gmap string (pyobj elem)).
Implicit Types (std_dict mean_dict : gmap string elem).



Section loop.
Context (self : seedable) (mk : frame → generator (elem := elem))
  (indices0 : result (list Z)) (chunk : Z → Z * Z) (progress : Z → Z)
  (verbose : bool) (std_dict mean_dict : gmap string elem).
Hypothesis gen_next_mk : ∀ fr w,
  gen_next (mk fr) w = loop_next self mk indices0 chunk progress verbose fr w.



End loop.



End noise_run_facts.

(** ** More on the noise decorator, and on shuffling *)

Section decorator_facts.
Context {elem R H : Type} `{!RandomSource R} `{!Handler elem H}.
Implicit Types (w : world elem R H) (d : gmap string (pyobj elem)).

(** X14. A noise decorator without standard deviations is transparent:
    it can be constructed around every iterator, another noise decorator
    among them, has the data names of the iterator it wraps, and a run of
    it is the run of the wrapped iterator, batch for batch and effect for
    effect. *)
Theorem X14_noise_without_names (iter : iterator (elem := elem))
    (mean_dict : option (gmap string elem)) w :
  mean_dict = None ∨ mean_dict = Some ∅ →
  ∃ noisy,
    AddGaussianNoise_init iter ∅ mean_dict w = Ok noisy ∧
    data_names noisy = data_names iter ∧
    ∀ fuel verbose w', consume fuel (call noisy verbose) w' = consume fuel (call iter verbose) w'.
Proof.
  intros Hmeans. eexists. split_and!.
  - unfold AddGaussianNoise_init. rewrite map_to_list_empty.
    by destruct Hmeans as [-> | ->].
  - done.
  - intros fuel verbose. simpl call. generalize (call iter verbose) as g.
    induction fuel as [|fuel IH]; intros g w'; [done|].
    simpl consume. cbn [gen_next]. rewrite map_to_list_empty.
    destruct (gen_next g w') as [[l g'| |e] w1]; simpl; [|done..].
    by rewrite IH.
Qed.



End decorator_facts.

(** ** The hypotheses of the further properties can be met *)

Section further_examples.
#[local] Existing Instance reversing_source.
#[local] Existing Instance constant_handler.



Lemma X2_batch_size_zero_witness :
  valid_dataset 4 data_x4 ∧ 0 < 1 ∧
  ∃ it w w' out,
    Minibatches_init 0 true None None data_x4 empty_world = Ok (it, w) ∧
    consume 1 (call it true) w = Some ([], Some ZeroDivisionError, w') ∧
    stdout w' = stdout w ++ [out] ∧
    heap w' = heap w ∧ rnds w' = rnds w ∧ sent w' = sent w ∧ hstate w' = hstate w.
Proof.
  split; [exact x4_valid|]. split; [lia|].
  apply (X2_batch_size_zero 4 data_x4 true None None empty_world true 1 x4_valid). lia.
Defined.

Lemma X3_batch_size_negative_witness :
  valid_dataset 4 data_x4 ∧ (-3 < 0)%Z ∧ 0 < 1 ∧
  ∃ it w w',
    Minibatches_init (-3) true None None data_x4 empty_world = Ok (it, w) ∧
    consume 1 (call it true) w = Some ([], None, w') ∧
    heap w' = heap w ∧ sent w' = sent w.
Proof.
  split; [exact x4_valid|]. split; [lia|]. split; [lia|].
  apply (X3_batch_size_negative 4 data_x4 (-3) true None None empty_world true 1 x4_valid);
    lia.
Defined.











Lemma X14_noise_without_names_witness :
  ((None : option (gmap string Z)) = None ∨ (None : option (gmap string Z)) = Some ∅) ∧
  ∃ noisy,
    AddGaussianNoise_init
      (AddGaussianNoise (dom data_xy) undivided_xy {[ "x"%string := 5%Z ]} ∅)
      ∅ None world_xy = Ok noisy ∧
    ∀ fuel verbose w',
      consume fuel (call noisy verbose) w'
      = consume fuel
          (call (AddGaussianNoise (dom data_xy) undivided_xy {[ "x"%string := 5%Z ]} ∅)
             verbose) w'.
Proof.
  split; [by left|].
  destruct (X14_noise_without_names
              (AddGaussianNoise (dom data_xy) undivided_xy {[ "x"%string := 5%Z ]} ∅)
              None world_xy) as (noisy & Hinit & _ & Hrun); [by left|].
  by exists noisy.
Defined.



End further_examples.
